(** * The Mafia game engine of [main.py], embedded in Rocq

    The bot keeps one dictionary per chat in the global [games]; its
    handlers mutate that dictionary and talk to Telegram.  The embedding
    keeps the dictionaries (insertion ordered, as Python's are), the set
    [alive], the exceptions Python raises on a missing key, and the
    messages handed to Telegram, which are collected in an outbox. *)

From stdpp Require Import base list strings pretty gmap.

Local Open Scope Z_scope.

(** ** Python values *)

Module Py.

(** The exceptions the handlers can run into. *)
Inductive exn :=
| KeyError | ValueError | TypeError | StopIteration | RuntimeError.

Inductive res (A : Type) :=
| Ret (a : A)
| Raise (e : exn).
Arguments Ret {A} a.
Arguments Raise {A} e.

Definition rbind {A B} (m : res A) (k : A -> res B) : res B :=
  match m with
  | Ret a => k a
  | Raise e => Raise e
  end.

(** [if x:] on an [Optional[int]]: [None] and [0] are false. *)
Definition truthy (o : option Z) : bool :=
  match o with
  | Some z => negb (z =? 0)
  | None => false
  end.

Section dict.
Context {K V : Type} `{EqDecision K}.

(** A [dict] lists its items in insertion order; keys are unique. *)
Fixpoint get (k : K) (d : list (K * V)) : option V :=
  match d with
  | [] => None
  | (k', v) :: d' => if decide (k = k') then Some v else get k d'
  end.

(** [d[k]] *)
Definition getitem (k : K) (d : list (K * V)) : res V :=
  match get k d with
  | Some v => Ret v
  | None => Raise KeyError
  end.

(** [d[k] = v]: an existing key keeps its place, a new one goes last. *)
Fixpoint set (k : K) (v : V) (d : list (K * V)) : list (K * V) :=
  match d with
  | [] => [(k, v)]
  | (k', v') :: d' =>
      if decide (k = k') then (k, v) :: d' else (k', v') :: set k v d'
  end.

(** [del d[k]] for a key that is present: its item goes. *)
Fixpoint del (k : K) (d : list (K * V)) : list (K * V) :=
  match d with
  | [] => []
  | (k', v') :: d' =>
      if decide (k = k') then del k d' else (k', v') :: del k d'
  end.

Definition keys (d : list (K * V)) : list K := d.*1.
Definition values (d : list (K * V)) : list V := d.*2.

(** [k in d] *)
Definition mem (k : K) (d : list (K * V)) : bool :=
  bool_decide (is_Some (get k d)).

(** [dict(pairs)] *)
Definition of_pairs (l : list (K * V)) : list (K * V) :=
  foldl (fun d kv => set kv.1 kv.2 d) [] l.
End dict.

(** List comprehensions whose body may raise. *)
Fixpoint map_res {A B} (f : A -> res B) (l : list A) : res (list B) :=
  match l with
  | [] => Ret []
  | a :: l' =>
      rbind (f a) (fun b => rbind (map_res f l') (fun bs => Ret (b :: bs)))
  end.

Fixpoint filter_res {A} (f : A -> res bool) (l : list A) : res (list A) :=
  match l with
  | [] => Ret []
  | a :: l' =>
      rbind (f a) (fun b =>
      rbind (filter_res f l') (fun r => Ret (if b then a :: r else r)))
  end.

(** [x[i], x[j] = x[j], x[i]] *)
Definition swap {A} (i j : nat) (x : list A) : list A :=
  match x !! i, x !! j with
  | Some a, Some b => <[j:=a]> (<[i:=b]> x)
  | _, _ => x
  end.

(** [random.shuffle]: for [i] from [len(x) - 1] down to [1], exchange
    [x[i]] with [x[j]], [j = randbelow(i + 1)].  [rnd (i + 1)] is the
    generator's draw, reduced into [0 .. i]. *)
Fixpoint shuffle_from {A} (rnd : nat -> nat) (i : nat) (x : list A) : list A :=
  match i with
  | O => x
  | S i' => shuffle_from rnd i' (swap i (rnd (S i) mod S i)%nat x)
  end.

Definition shuffle {A} (rnd : nat -> nat) (x : list A) : list A :=
  shuffle_from rnd (length x - 1)%nat x.

(** [next(k for k, v in d.items() if p(v))] *)
Fixpoint next_key {K V} (p : V -> bool) (d : list (K * V)) : res K :=
  match d with
  | [] => Raise StopIteration
  | (k, v) :: d' => if p v then Ret k else next_key p d'
  end.

(** [str.lower] and [str.strip] on ASCII text, for the examples. *)
Definition lower_char (c : Ascii.ascii) : Ascii.ascii :=
  let n := Ascii.nat_of_ascii c in
  if (65 <=? n)%nat && (n <=? 90)%nat then Ascii.ascii_of_nat (n + 32) else c.

Fixpoint ascii_lower (s : string) : string :=
  match s with
  | EmptyString => EmptyString
  | String c s' => String (lower_char c) (ascii_lower s')
  end.

Definition is_space (c : Ascii.ascii) : bool :=
  let n := Ascii.nat_of_ascii c in
  (n =? 32)%nat || ((9 <=? n)%nat && (n <=? 13)%nat).

Fixpoint lstrip (s : string) : string :=
  match s with
  | EmptyString => EmptyString
  | String c s' => if is_space c then lstrip s' else s
  end.

Fixpoint rstrip (s : string) : string :=
  match s with
  | EmptyString => EmptyString
  | String c s' =>
      match rstrip s' with
      | EmptyString => if is_space c then EmptyString else String c EmptyString
      | r => String c r
      end
  end.

Definition ascii_strip (s : string) : string := rstrip (lstrip s).

(** [max(l)] of a list of counts; [ValueError] on the empty list. *)
Definition max_of (l : list nat) : res nat :=
  match l with
  | [] => Raise ValueError
  | n :: l' => Ret (foldl Nat.max n l')
  end.

End Py.

Import Py.

(** ** Data model *)

(** The role strings ["Mafia"], ["Doktor"], ["Komissar"], ["Fuqaro"]. *)
Inductive role := Mafia | Doktor | Komissar | Fuqaro.

Global Instance role_eq_dec : EqDecision role.
Proof. solve_decision. Defined.

(** The values of [game["phase"]]: ["day"] and ["night"]. *)
Inductive phase_name := day_phase | night_phase.

Global Instance phase_name_eq_dec : EqDecision phase_name.
Proof. solve_decision. Defined.

(** The keys of [game["night_actions"]]: ["mafia"], ["doctor"], ["sheriff"]. *)
Inductive slot := mafia | doctor | sheriff.

Global Instance slot_eq_dec : EqDecision slot.
Proof. solve_decision. Defined.

(** One entry of [games]. *)
Record game := Game {
  players : list (Z * string);
  roles : list (Z * role);
  alive : gset Z;
  started : bool;
  phase : phase_name;
  votes : list (Z * Z);
  night_actions : list (slot * Z);
}.

(** The texts the bot sends, one constructor per message of the source. *)
Inductive text :=
| TownWins
| MafiaWins
| NightReport (victim : option string) (checked : option (string * role))
              (alive_names : list string)
| DayStarted
| NewGameCreated
| SendNewgameFirst
| AlreadyStarted
| AlreadyJoined
| Joined (first_name : option string)
| NeedThreePlayers
| YourRole (r : role)
| GameBegun
| ErrorText (e : exn)
| NoGame
| NotStarted
| SendBeginFirst
| NotNightNow
| NotDayNow
| NightStarted
| YouAreDead
| VoteUsage
| NoSuchLivingPlayer
| VoteRecorded (target_name : string)
| Eliminated (name : string)
| TieNobodyEliminated
| AskForNight
| NotInAnyGame
| KillChosen (name : string)
| HealChosen (name : string)
| CheckChosen (name : string).

(** The calls to Telegram.  [Unawaited] is [context.bot.send_message(...)]
    called without [await], as [check_game_end], which is not a coroutine,
    does: the message is built and dropped. *)
Inductive event :=
| SendMessage (chat_id : Z) (t : text)
| Unawaited (chat_id : Z) (t : text)
| ReplyText (t : text)
| Menu (chat_id : Z) (s : slot) (buttons : list (string * Z))
| EditText (t : text).

Record world := World {
  games : list (Z * game);
  outbox : list event;
}.

(** ** Handlers run in a state and exception monad; an exception leaves
    the mutations made so far in place, as in Python. *)

Definition M (A : Type) : Type := world -> res A * world.

Definition ret {A} (a : A) : M A := fun w => (Ret a, w).
Definition raise {A} (e : exn) : M A := fun w => (Raise e, w).
Definition bind {A B} (m : M A) (k : A -> M B) : M B :=
  fun w =>
    match m w with
    | (Ret a, w') => k a w'
    | (Raise e, w') => (Raise e, w')
    end.
Definition lift {A} (r : res A) : M A := fun w => (r, w).

Declare Scope m_scope.
Delimit Scope m_scope with M.
Notation "x <- m ;; k" := (bind m (fun x => k))
  (at level 100, m at next level, right associativity) : m_scope.
Notation "m ;;; k" := (bind m (fun _ => k))
  (at level 100, right associativity) : m_scope.
Local Open Scope m_scope.

Definition get_games : M (list (Z * game)) := fun w => (Ret (games w), w).
Definition emit (e : event) : M unit :=
  fun w => (Ret tt, World (games w) (outbox w ++ [e])).

(** [games[chat_id]] *)
Definition get_game (chat_id : Z) : M game :=
  gs <- get_games ;; lift (getitem chat_id gs).

(** A mutation of the dictionary [games[chat_id]] through a reference to
    it; the handlers only do this while the entry is in [games]. *)
Definition update_game (chat_id : Z) (f : game -> game) : M unit :=
  fun w =>
    match get chat_id (games w) with
    | Some g => (Ret tt, World (set chat_id (f g) (games w)) (outbox w))
    | None => (Raise KeyError, w)
    end.

(** [del games[chat_id]] *)
Definition del_game (chat_id : Z) : M unit :=
  fun w =>
    match get chat_id (games w) with
    | Some _ => (Ret tt, World (del chat_id (games w)) (outbox w))
    | None => (Raise KeyError, w)
    end.

Definition set_roles (r : list (Z * role)) (g : game) : game :=
  Game (players g) r (alive g) (started g) (phase g) (votes g) (night_actions g).
Definition set_alive (a : gset Z) (g : game) : game :=
  Game (players g) (roles g) a (started g) (phase g) (votes g) (night_actions g).
Definition set_started (b : bool) (g : game) : game :=
  Game (players g) (roles g) (alive g) b (phase g) (votes g) (night_actions g).
Definition set_phase (p : phase_name) (g : game) : game :=
  Game (players g) (roles g) (alive g) (started g) p (votes g) (night_actions g).
Definition set_votes (v : list (Z * Z)) (g : game) : game :=
  Game (players g) (roles g) (alive g) (started g) (phase g) v (night_actions g).
Definition set_night_actions (n : list (slot * Z)) (g : game) : game :=
  Game (players g) (roles g) (alive g) (started g) (phase g) (votes g) n.

(** ** Utility functions *)

(** [assign_roles(player_ids)]; [rnd] is the random source of [shuffle]. *)
Definition assign_roles (rnd : nat -> nat) (player_ids : list Z)
  : res (list (Z * role)) :=
  let n := length player_ids in
  if (n <? 3)%nat then Raise ValueError
  else
    let roles := [Mafia] ++ [Doktor; Komissar] ++ replicate (n - 3) Fuqaro in
    let roles := shuffle rnd roles in
    Ret (of_pairs (zip player_ids roles)).

(** [check_game_end(chat_id, context)] *)
Definition check_game_end (chat_id : Z) : M bool :=
  game <- get_game chat_id ;;
  let alive := elements (alive game) in
  if bool_decide (alive = []) then ret false
  else
    mafia <- lift (filter_res
               (fun p => rbind (getitem p (roles game))
                           (fun r => Ret (bool_decide (r = Mafia)))) alive) ;;
    fuqaro <- lift (filter_res
               (fun p => rbind (getitem p (roles game))
                           (fun r => Ret (bool_decide (r <> Mafia)))) alive) ;;
    if bool_decide (length mafia = 0%nat) then
      emit (Unawaited chat_id TownWins) ;;;
      del_game chat_id ;;;
      ret true
    else if bool_decide (length fuqaro <= length mafia)%nat then
      emit (Unawaited chat_id MafiaWins) ;;;
      del_game chat_id ;;;
      ret true
    else ret false.

(** [try: m except Exception as e: h e] *)
Definition try_catch {A} (m : M A) (h : exn -> M A) : M A :=
  fun w =>
    match m w with
    | (Ret a, w') => (Ret a, w')
    | (Raise e, w') => h e w'
    end.

(** The body of an [async def]: a [StopIteration] that escapes it reaches
    the caller as [RuntimeError]. *)
Definition coroutine {A} (m : M A) : M A :=
  try_catch m (fun e =>
    match e with
    | StopIteration => raise RuntimeError
    | _ => raise e
    end).

(** [for x in l: f x] *)
Fixpoint for_each {A} (l : list A) (f : A -> M unit) : M unit :=
  match l with
  | [] => ret tt
  | a :: l' => f a ;;; for_each l' f
  end.

(** [game["alive"].discard(x)] *)
Definition discard (x : Z) (g : game) : game := set_alive (alive g ∖ {[x]}) g.

(** The end of [end_night_phase], from its win check on (lines 102-106). *)
Definition day_breaks (chat_id : Z) : M unit :=
  ended <- check_game_end chat_id ;;
  if negb ended then
    update_game chat_id (set_phase day_phase) ;;;
    update_game chat_id (set_votes []) ;;;
    emit (SendMessage chat_id DayStarted)
  else ret tt.

(** [end_night_phase(chat_id, context)] *)
Definition end_night_phase (chat_id : Z) : M unit :=
  coroutine (
    game <- get_game chat_id ;;
    let night_actions := night_actions game in
    let mafia_target := get mafia night_actions in
    let doctor_protect := get doctor night_actions in
    let sheriff_check := get sheriff night_actions in
    let victim :=
      if truthy mafia_target && bool_decide (mafia_target <> doctor_protect)
      then mafia_target else None in
    victim_name <-
      (if truthy victim then
         let v := default 0 victim in
         update_game chat_id (discard v) ;;;
         name <- lift (getitem v (players game)) ;;
         ret (Some name)
       else ret None) ;;
    checked <-
      (if truthy sheriff_check then
         let c := default 0 sheriff_check in
         role <- lift (getitem c (roles game)) ;;
         sheriff_id <- lift (next_key (fun r => bool_decide (r = Komissar))
                                      (roles game)) ;;
         sheriff_name <- lift (getitem sheriff_id (players game)) ;;
         checked_name <- lift (getitem c (players game)) ;;
         ret (Some (checked_name, role))
       else ret None) ;;
    game' <- get_game chat_id ;;
    alive_names <- lift (map_res (fun uid => getitem uid (players game'))
                                 (elements (alive game'))) ;;
    emit (SendMessage chat_id (NightReport victim_name checked alive_names)) ;;;
    day_breaks chat_id).

(** ** Commands *)

(** The dictionary [newgame] stores. *)
Definition new_game : game :=
  Game [] [] ∅ false day_phase [] [].

(** [newgame]: [games[chat_id] = {...}] *)
Definition newgame (chat_id : Z) : M unit :=
  (fun w => (Ret tt, World (set chat_id new_game (games w)) (outbox w))) ;;;
  emit (ReplyText NewGameCreated).

(** [user.first_name or f"User{user.id}"] *)
Definition display_name (user_id : Z) (first_name : option string) : string :=
  match first_name with
  | Some n => if bool_decide (n = "") then "User" +:+ pretty user_id else n
  | None => "User" +:+ pretty user_id
  end.

Definition set_players (p : list (Z * string)) (g : game) : game :=
  Game p (roles g) (alive g) (started g) (phase g) (votes g) (night_actions g).

(** [join] *)
Definition join (chat_id user_id : Z) (first_name : option string) : M unit :=
  gs <- get_games ;;
  if negb (mem chat_id gs) then emit (ReplyText SendNewgameFirst)
  else
    game <- get_game chat_id ;;
    if started game then emit (ReplyText AlreadyStarted)
    else if mem user_id (players game) then emit (ReplyText AlreadyJoined)
    else
      update_game chat_id
        (fun g => set_players
                    (set user_id (display_name user_id first_name) (players g)) g) ;;;
      emit (ReplyText (Joined first_name)).

(** [begin]; [rnd] is the random source of this call's shuffle. *)
Definition begin (rnd : nat -> nat) (chat_id : Z) : M unit :=
  gs <- get_games ;;
  if negb (mem chat_id gs) then emit (ReplyText SendNewgameFirst)
  else
    game <- get_game chat_id ;;
    let players := keys (players game) in
    if (length players <? 3)%nat then emit (ReplyText NeedThreePlayers)
    else
      try_catch
        (r <- lift (assign_roles rnd players) ;;
         update_game chat_id (set_roles r) ;;;
         update_game chat_id (set_alive (list_to_set players)) ;;;
         update_game chat_id (set_started true) ;;;
         update_game chat_id (set_phase night_phase) ;;;
         for_each r (fun '(uid, role) => emit (SendMessage uid (YourRole role))) ;;;
         emit (ReplyText GameBegun))
        (fun e => emit (ReplyText (ErrorText e))).

(** The buttons [night] offers to [uid]: the living players, without
    [uid] itself when [exclude_self]. *)
Definition buttons_for (g : game) (uid : Z) (exclude_self : bool)
  : list (string * Z) :=
  omap (fun '(target, name) =>
          if bool_decide (target ∈ alive g)
             && (negb exclude_self || bool_decide (target <> uid))
          then Some (name, target) else None)
       (players g).

(** [night] *)
Definition night (chat_id : Z) : M unit :=
  gs <- get_games ;;
  if negb (mem chat_id gs) then emit (ReplyText NoGame)
  else
    game <- get_game chat_id ;;
    if negb (started game) then emit (ReplyText SendBeginFirst)
    else if bool_decide (phase game <> day_phase) then emit (ReplyText NotNightNow)
    else
      update_game chat_id (set_phase night_phase) ;;;
      update_game chat_id (set_night_actions []) ;;;
      for_each (roles game) (fun '(uid, role) =>
        if bool_decide (uid ∉ alive game) then ret tt
        else
          match role with
          | Mafia =>
              let buttons := buttons_for game uid true in
              if bool_decide (buttons <> []) then emit (Menu uid mafia buttons)
              else ret tt
          | Doktor => emit (Menu uid doctor (buttons_for game uid false))
          | Komissar => emit (Menu uid sheriff (buttons_for game uid true))
          | Fuqaro => ret tt
          end) ;;;
      emit (ReplyText NightStarted).

(** [day] *)
Definition day (chat_id : Z) : M unit :=
  gs <- get_games ;;
  if negb (mem chat_id gs) then emit (ReplyText NoGame)
  else
    game <- get_game chat_id ;;
    if negb (started game) then emit (ReplyText NotStarted)
    else if bool_decide (phase game <> night_phase) then emit (ReplyText NotDayNow)
    else end_night_phase chat_id.

(** The loop of [vote] that resolves a name: the first item of [players],
    in insertion order, whose name matches and whose id is alive. *)
Fixpoint find_target (lower : string -> string) (target_name : string)
    (alive : gset Z) (items : list (Z * string)) : option Z :=
  match items with
  | [] => None
  | (uid, name) :: rest =>
      if bool_decide (lower name = lower target_name) && bool_decide (uid ∈ alive)
      then Some uid
      else find_target lower target_name alive rest
  end.

(** The loop of [vote] that counts: [vote_count[v] = vote_count.get(v, 0) + 1]
    for every recorded vote. *)
Definition count_votes (votes : list (Z * Z)) : list (Z * nat) :=
  foldl (fun vote_count v => set v (default 0%nat (get v vote_count) + 1)%nat vote_count)
        [] (values votes).

(** The end of the tally in [vote], from its win check on (lines 345-349). *)
Definition night_is_due (chat_id : Z) : M unit :=
  ended <- check_game_end chat_id ;;
  if negb ended then
    update_game chat_id (set_phase night_phase) ;;;
    emit (ReplyText AskForNight)
  else ret tt.

Section vote.
(** [str.lower] and [str.strip] are Python's; the handler does not
    depend on what they compute. *)
Variables lower strip : string -> string.

(** What the call [update.message.reply_chat_action(chat_id=chat_id)]
    does.  python-telegram-bot declares
    [Message.reply_chat_action(self, action, ...)] with no parameter
    [chat_id], so the call as written is rejected with [TypeError]
    ([ptb_reply_chat_action] below). *)
Variable chat_action : res unit.

(** The end of [vote], from its quorum check on (lines 327-349);
    [night_is_due] is its own end, from the win check on. *)
Definition tally_votes (chat_id : Z) : M unit :=
  game <- get_game chat_id ;;
  if bool_decide (length (votes game) = size (alive game)) then
    let vote_count := count_votes (votes game) in
    max_votes <- lift (max_of (values vote_count)) ;;
    let candidates :=
      (filter (fun uc => uc.2 = max_votes) vote_count).*1 in
    (if bool_decide (length candidates = 1%nat) then
       let eliminated := default 0 (head candidates) in
       update_game chat_id (discard eliminated) ;;;
       lift chat_action ;;;
       name <- lift (getitem eliminated (players game)) ;;
       emit (ReplyText (Eliminated name))
     else emit (ReplyText TieNobodyEliminated)) ;;;
    night_is_due chat_id
  else ret tt.

(** [vote]; [args] is [context.args]. *)
Definition vote (chat_id user_id : Z) (args : list string) : M unit :=
  gs <- get_games ;;
  if negb (mem chat_id gs) then emit (ReplyText NoGame)
  else
    game <- get_game chat_id ;;
    if bool_decide (phase game <> day_phase) then emit (ReplyText NotDayNow)
    else if bool_decide (user_id ∉ alive game) then emit (ReplyText YouAreDead)
    else if bool_decide (args = []) then emit (ReplyText VoteUsage)
    else
      let target_name := strip (String.concat " " args) in
      let target_id := find_target lower target_name (alive game) (players game) in
      if negb (truthy target_id) then emit (ReplyText NoSuchLivingPlayer)
      else
        let target_id := default 0 target_id in
        update_game chat_id (fun g => set_votes (set user_id target_id (votes g)) g) ;;;
        emit (ReplyText (VoteRecorded target_name)) ;;;
        tally_votes chat_id.
End vote.

(** The call as python-telegram-bot answers it. *)
Definition ptb_reply_chat_action : res unit := Raise TypeError.

(** ** Button callbacks *)

(** [query.data], decoded: [night] builds the payloads as
    [f"mafia_{target}"], [f"doctor_{target}"], [f"sheriff_{target}"], and
    the handler reads them back with [startswith], [split] and [int]. *)
Inductive callback :=
| Chosen (s : slot) (target : Z)
| OtherData.

(** The scan of [button_handler] over [games.items()]. *)
Fixpoint find_chat (user_id : Z) (gs : list (Z * game)) : option Z :=
  match gs with
  | [] => None
  | (cid, game) :: rest =>
      if mem user_id (players game) && bool_decide (user_id ∈ alive game)
      then Some cid
      else find_chat user_id rest
  end.

Definition chosen_text (s : slot) (name : string) : text :=
  match s with
  | mafia => KillChosen name
  | doctor => HealChosen name
  | sheriff => CheckChosen name
  end.

(** [button_handler]; its first call, [query.answer()], sends no message
    and is left out. *)
Definition button_handler (user_id : Z) (data : callback) : M unit :=
  gs <- get_games ;;
  let target_chat := find_chat user_id gs in
  if negb (truthy target_chat) then emit (ReplyText NotInAnyGame)
  else
    let target_chat := default 0 target_chat in
    game <- get_game target_chat ;;
    match data with
    | Chosen s target =>
        update_game target_chat
          (fun g => set_night_actions (set s target (night_actions g)) g) ;;;
        name <- lift (getitem target (players game)) ;;
        emit (EditText (chosen_text s name))
    | OtherData => ret tt
    end.

(** ** Read-only commands *)

(** What [players] and [status] answer with [reply_text]; they do
    nothing else, and the answer is their value here. *)
Inductive listing :=
| NoGameYet
| NobodyJoined
| PlayerList (names : list string)
| NoGameToShow
| GameStatus (is_day : bool) (alive_names : list string).

(** [players], the command. *)
Definition players_command (chat_id : Z) : M listing :=
  gs <- get_games ;;
  if negb (mem chat_id gs) then ret NoGameYet
  else
    game <- get_game chat_id ;;
    if bool_decide (players game = []) then ret NobodyJoined
    else
      let names := values (players game) in
      ret (PlayerList names).

(** [status] *)
Definition status (chat_id : Z) : M listing :=
  gs <- get_games ;;
  if negb (mem chat_id gs) then ret NoGameToShow
  else
    game <- get_game chat_id ;;
    alive_names <- lift (map_res (fun uid => getitem uid (players game))
                                 (elements (alive game))) ;;
    let phase := bool_decide (phase game = day_phase) in
    ret (GameStatus phase alive_names).

(** ** The bot as a whole *)

(** The updates the bot handles, and their handlers. *)
Inductive command :=
| CNewgame (chat_id : Z)
| CJoin (chat_id user_id : Z) (first_name : option string)
| CBegin (rnd : nat -> nat) (chat_id : Z)
| CNight (chat_id : Z)
| CDay (chat_id : Z)
| CVote (chat_id user_id : Z) (args : list string)
| CButton (user_id : Z) (data : callback).

Definition handle (lower strip : string -> string) (chat_action : res unit)
    (c : command) : M unit :=
  match c with
  | CNewgame chat_id => newgame chat_id
  | CJoin chat_id user_id first_name => join chat_id user_id first_name
  | CBegin rnd chat_id => begin rnd chat_id
  | CNight chat_id => night chat_id
  | CDay chat_id => day chat_id
  | CVote chat_id user_id args => vote lower strip chat_action chat_id user_id args
  | CButton user_id data => button_handler user_id data
  end.

(** The worlds the bot can be in: it starts with [games = {}], and every
    update is handled in the world the one before left, whether that
    handler returned or raised. *)
Inductive reachable (lower strip : string -> string) (chat_action : res unit)
  : world -> Prop :=
| reachable_start : reachable lower strip chat_action (World [] [])
| reachable_step w c r w' :
    reachable lower strip chat_action w ->
    handle lower strip chat_action c w = (r, w') ->
    reachable lower strip chat_action w'.

(** * Vocabulary of the statements *)

(** The living players with the role Mafia, and the other living players. *)
Definition killers (g : game) : gset Z :=
  filter (fun p => get p (roles g) = Some Mafia) (alive g).
Definition townsfolk (g : game) : gset Z :=
  filter (fun p => get p (roles g) <> Some Mafia) (alive g).

(** The three outcomes of [check_game_end] at [w]. *)
Definition town_wins (chat_id : Z) (w : world) : res bool * world :=
  (Ret true, World (del chat_id (games w))
                   (outbox w ++ [Unawaited chat_id TownWins])).
Definition mafia_wins (chat_id : Z) (w : world) : res bool * world :=
  (Ret true, World (del chat_id (games w))
                   (outbox w ++ [Unawaited chat_id MafiaWins])).
Definition no_winner (w : world) : res bool * world := (Ret false, w).

(** The rule of the win evaluator. *)
Definition win_rule (chat_id : Z) (w : world) (g : game) : res bool * world :=
  if decide (size (killers g) = 0%nat) then town_wins chat_id w
  else if decide (size (townsfolk g) <= size (killers g))%nat then mafia_wins chat_id w
  else no_winner w.

Definition roles_cover_alive (g : game) : Prop :=
  forall p, p ∈ alive g -> is_Some (get p (roles g)).

(** The number of players holding role [r] in a role mapping. *)
Definition count_role (r : role) (d : list (Z * role)) : nat :=
  length (filter (fun x => x = r) (values d)).

(** A lobby just created in chat [1]. *)
Definition lobby_world : world := World [(1, new_game)] [].

(** A started game of two living players, one of them the Mafia. *)
Definition duel_game : game :=
  Game [(1, "Ali"); (2, "Vali")] [(1, Mafia); (2, Fuqaro)] {[1; 2]}
       true night_phase [] [].
Definition duel_world : world := World [(5, duel_game)] [].

(** A random source that always draws [0]. *)
Definition draw_zero : nat -> nat := fun _ => 0%nat.

(** A lobby in chat [1] that two players have joined. *)
Definition two_joined : game :=
  Game [(1, "Ali"); (2, "Vali")] [] ∅ false day_phase [] [].
Definition two_joined_world : world := World [(1, two_joined)] [].

(** [m] relates every world it starts from to the world it leaves,
    whether it returns or raises. *)
Definition preserves {A} (R : world -> world -> Prop) (m : M A) : Prop :=
  forall w r w', m w = (r, w') -> R w w'.

(** Every game of [w'] was a game of [w], and [Q] relates the two. *)
Definition games_related (Q : game -> game -> Prop) (w w' : world) : Prop :=
  forall c g', get c (games w') = Some g' ->
    exists g, get c (games w) = Some g /\ Q g g'.

(** No [alive] has grown and no [players] has changed. *)
Definition shrunk (g g' : game) : Prop :=
  players g' = players g /\ alive g' ⊆ alive g.
Abbreviation alive_shrinks := (games_related shrunk).

(** The recorded votes are the same. *)
Definition same_votes (g g' : game) : Prop := votes g' = votes g.
Abbreviation votes_kept := (games_related same_votes).

(** The outbox has only been added to. *)
Definition outbox_grows (w w' : world) : Prop :=
  exists rest, outbox w' = outbox w ++ rest.

(** The operations that write [alive]. *)
Inductive operation :=
| Begin (rnd : nat -> nat)
| ResolveNight
| Vote (user_id : Z) (args : list string).

Definition run (lower strip : string -> string) (chat_action : res unit)
    (o : operation) (chat_id : Z) : M unit :=
  match o with
  | Begin rnd => begin rnd chat_id
  | ResolveNight => end_night_phase chat_id
  | Vote user_id args => vote lower strip chat_action chat_id user_id args
  end.

(** [set(game["players"].keys())] *)
Definition player_set (g : game) : gset Z := list_to_set (keys (players g)).

(** A night of four players in chat [9]: Ali, the Mafia, has chosen Gani;
    Vali, the Doktor, protects himself; Sami, the Komissar, checks Ali. *)
Definition quartet_game : game :=
  Game [(1, "Ali"); (2, "Vali"); (3, "Sami"); (4, "Gani")]
       [(1, Mafia); (2, Doktor); (3, Komissar); (4, Fuqaro)]
       {[1; 2; 3; 4]} true night_phase []
       [(mafia, 4); (doctor, 2); (sheriff, 1)].
Definition quartet_world : world := World [(9, quartet_game)] [].

(** The same game on the next morning. *)
Definition quartet_morning : game :=
  Game [(1, "Ali"); (2, "Vali"); (3, "Sami"); (4, "Gani")]
       [(1, Mafia); (2, Doktor); (3, Komissar); (4, Fuqaro)]
       {[1; 2; 3]} true day_phase []
       [(mafia, 4); (doctor, 2); (sheriff, 1)].

(** A day of three players in chat [9]; two of them are called Ali, up
    to the case of the letters. *)
Definition namesakes_game : game :=
  Game [(2, "Vali"); (1, "Ali"); (3, "ALI")]
       [(2, Mafia); (1, Doktor); (3, Komissar)]
       {[1; 2; 3]} true day_phase [] [].
Definition namesakes_world : world := World [(9, namesakes_game)] [].

(** Whom the night kills: the target of the Mafia, unless it is the one
    the Doktor protects. *)
Definition night_victim (g : game) : option Z :=
  match get mafia (night_actions g) with
  | Some t =>
      if decide (get doctor (night_actions g) = Some t) then None else Some t
  | None => None
  end.


(** What the Komissar's check tells: the name and the role of its target. *)
Definition investigation (g : game) : option (string * role) :=
  match get sheriff (night_actions g) with
  | Some c =>
      match get c (players g), get c (roles g) with
      | Some n, Some r => Some (n, r)
      | _, _ => None
      end
  | None => None
  end.

(** The games on which [end_night_phase] is specified: the living are
    players, the players are those who have a role, one of them is the
    Komissar, and every submitted target is a player of this game whose
    id is not [0].  The first three hold of every started game the bot
    can hold.  The last is a requirement on the submissions that
    [button_handler] does not enforce: it stores the target of whatever
    button was pressed, that of a menu sent for another game included. *)
Record night_ready (g : game) : Prop := {
  ready_alive : forall u, u ∈ alive g -> is_Some (get u (players g));
  ready_roles : forall u, is_Some (get u (players g)) <-> is_Some (get u (roles g));
  ready_sheriff : Komissar ∈ values (roles g);
  ready_targets : forall s t, get s (night_actions g) = Some t ->
                    t <> 0 /\ is_Some (get t (players g));
}.

(** [user_id] is a living player of [g]. *)
Definition living_in (user_id : Z) (g : game) : Prop :=
  is_Some (get user_id (players g)) /\ user_id ∈ alive g.

(** The day of the four, after Gani's death, and the night after it. *)
Definition quartet_day_world : world := World [(9, quartet_morning)] [].
Definition quartet_second_night : game :=
  set_night_actions [] (set_phase night_phase quartet_morning).
Definition quartet_second_night_world : world :=
  World [(9, quartet_second_night)] [].

(** The same day when Ali and Vali have voted for Ali. *)
Definition quartet_two_votes : game :=
  set_votes [(1, 1); (2, 1)] quartet_morning.
Definition quartet_two_votes_world : world := World [(9, quartet_two_votes)] [].

(** The same day when Sami's vote for Ali, the third of three, has been
    counted and Ali is out. *)
Definition quartet_ali_out : game :=
  set_votes [(1, 1); (2, 1); (3, 1)] (set_alive {[2; 3]} quartet_morning).

(** The number of recorded votes for [t], and [t] being a candidate of
    the tally: it has votes, and nobody has more. *)
Definition votes_for (t : Z) (votes : list (Z * Z)) : nat :=
  length (filter (fun kv => kv.2 = t) votes).
Definition leads (votes : list (Z * Z)) (t : Z) : Prop :=
  (0 < votes_for t votes)%nat
  /\ forall t', (votes_for t' votes <= votes_for t votes)%nat.

(** What every game in [games] satisfies: the player ids are distinct and
    the living are players; before [begin] nobody has a role or is alive;
    after it the roles are those of the players, one Mafia, one Doktor
    and one Komissar among them, and there are three players or more. *)
Record wf_game (g : game) : Prop := {
  wf_players : NoDup (keys (players g));
  wf_alive : alive g ⊆ player_set g;
  wf_lobby : started g = false -> roles g = [] /\ alive g = ∅;
  wf_started : started g = true ->
               keys (roles g) = keys (players g)
               /\ count_role Mafia (roles g) = 1%nat
               /\ count_role Doktor (roles g) = 1%nat
               /\ count_role Komissar (roles g) = 1%nat
               /\ (3 <= length (players g))%nat;
}.

Definition wf_world (w : world) : Prop :=
  forall c g, get c (games w) = Some g -> wf_game g.

(** [g'] is well formed if [g] is. *)
Definition keeps_wf (g g' : game) : Prop := wf_game g -> wf_game g'.

(** The games are the same. *)
Definition same_games (w w' : world) : Prop := games w' = games w.

(** The role that is sent the menu of a slot. *)
Definition slot_role (s : slot) : role :=
  match s with
  | mafia => Mafia
  | doctor => Doktor
  | sheriff => Komissar
  end.

(** A menu as the rules want it: it goes to a living holder of the
    slot's role and offers living players under their names, the
    recipient among them only to the Doktor. *)
Definition legal_menu (g : game) (e : event) : Prop :=
  exists uid s buttons,
    e = Menu uid s buttons
    /\ uid ∈ alive g
    /\ (uid, slot_role s) ∈ roles g
    /\ forall name t, (name, t) ∈ buttons ->
         (t, name) ∈ players g /\ t ∈ alive g /\ (s <> doctor -> t <> uid).

(** The events [night] sends to one holder of a role. *)
Definition menu_for (g : game) (ur : Z * role) : list event :=
  if bool_decide (ur.1 ∉ alive g) then []
  else
    match ur.2 with
    | Mafia =>
        if bool_decide (buttons_for g ur.1 true <> [])
        then [Menu ur.1 mafia (buttons_for g ur.1 true)] else []
    | Doktor => [Menu ur.1 doctor (buttons_for g ur.1 false)]
    | Komissar => [Menu ur.1 sheriff (buttons_for g ur.1 true)]
    | Fuqaro => []
    end.

(** The private message that tells a player the role. *)
Definition role_message (ur : Z * role) : event :=
  SendMessage ur.1 (YourRole ur.2).

(** The day of the four when all three living have voted for Ali. *)
Definition quartet_three_votes : game :=
  set_votes [(1, 1); (2, 1); (3, 1)] quartet_morning.
Definition quartet_three_votes_world : world := World [(9, quartet_three_votes)] [].

(** The complaint of [vote] when it turns a vote down. *)
Definition vote_complaint (g : game) (user_id : Z) (args : list string) : text :=
  if decide (phase g <> day_phase) then NotDayNow
  else if decide (user_id ∉ alive g) then YouAreDead
  else if decide (args = []) then VoteUsage
  else NoSuchLivingPlayer.

(** The world after a list of updates, handled one after the other. *)
Definition run_script (lower strip : string -> string) (chat_action : res unit)
    (cs : list command) (w : world) : world :=
  foldl (fun w c => (handle lower strip chat_action c w).2) w cs.

(** Four players open a game in chat [9] and let the first night pass. *)
Definition opening_script : list command :=
  [CNewgame 9; CJoin 9 1 (Some "Ali"); CJoin 9 2 (Some "Vali");
   CJoin 9 3 (Some "Sami"); CJoin 9 4 None; CBegin draw_zero 9; CDay 9].
Definition opening_world : world :=
  run_script ascii_lower ascii_strip ptb_reply_chat_action opening_script
             (World [] []).
Definition opening_game : game := default new_game (get 9 (games opening_world)).

(** Two chats, [9] before [11] in [games]; Ali (user [1]) is a living
    player of both, Gani (user [4]) of none. *)
Definition two_chats_world : world :=
  World [(9, quartet_morning); (11, namesakes_game)] [].


(** A second [begin].  The four of [opening_script] play on: in the
    night the Mafia (user [4]) chooses Sami (user [3]), who is dead on
    the next morning. *)
Definition revival_script : list command :=
  opening_script ++ [CNight 9; CButton 4 (Chosen mafia 3); CDay 9].
Definition revival_world : world :=
  run_script ascii_lower ascii_strip ptb_reply_chat_action revival_script
             (World [] []).
Definition revival_game : game := default new_game (get 9 (games revival_world)).

(** * Properties *)

(** ** Dictionaries *)

Section dict_facts.
Context {K V : Type} `{EqDecision K}.
Implicit Types (d : list (K * V)) (k : K) (v : V).

Lemma get_set_eq k v d : get k (set k v d) = Some v.
Proof.
  induction d as [|[k' v'] d IH]; simpl.
  - by rewrite decide_True.
  - destruct (decide (k = k')) as [->|Hne]; simpl.
    + by rewrite decide_True.
    + by rewrite decide_False.
Qed.

Lemma get_set_ne k k' v d : k <> k' -> get k' (set k v d) = get k' d.
Proof.
  intros Hne. induction d as [|[k0 v0] d IH]; simpl.
  - by rewrite decide_False.
  - destruct (decide (k = k0)) as [->|Hk]; simpl.
    + by rewrite !decide_False.
    + destruct (decide (k' = k0)); done.
Qed.

Lemma keys_set_present k v d : is_Some (get k d) -> keys (set k v d) = keys d.
Proof.
  unfold keys. induction d as [|[k0 v0] d IH]; simpl.
  - by intros [? ?].
  - destruct (decide (k = k0)) as [->|Hk]; csimpl; [done|].
    intros Hs. f_equal. by apply IH.
Qed.

Lemma keys_set_absent k v d : get k d = None -> keys (set k v d) = keys d ++ [k].
Proof.
  unfold keys. induction d as [|[k0 v0] d IH]; simpl; [done|].
  destruct (decide (k = k0)) as [->|Hk]; csimpl; [done|].
  intros Hn. f_equal. by apply IH.
Qed.

Lemma get_None_keys k d : get k d = None <-> k ∉ keys d.
Proof.
  unfold keys. induction d as [|[k0 v0] d IH]; simpl.
  - split; [intros _; apply not_elem_of_nil | done].
  - rewrite not_elem_of_cons. destruct (decide (k = k0)) as [->|Hk].
    + split; [done | intros [? _]; done].
    + rewrite IH. tauto.
Qed.

Lemma get_Some_keys k d : is_Some (get k d) <-> k ∈ keys d.
Proof.
  rewrite <-not_eq_None_Some, get_None_keys.
  destruct (decide (k ∈ keys d)); tauto.
Qed.

Lemma length_set_present k v d :
  is_Some (get k d) -> length (set k v d) = length d.
Proof.
  induction d as [|[k0 v0] d IH]; simpl.
  - by intros [? ?].
  - destruct (decide (k = k0)) as [->|Hk]; simpl; [done|].
    intros Hs. by rewrite IH.
Qed.

Lemma length_set_value k v v' d : length (set k v d) = length (set k v' d).
Proof.
  induction d as [|[k0 v0] d IH]; simpl; [done|].
  destruct (decide (k = k0)); simpl; [done | by rewrite IH].
Qed.

Lemma NoDup_keys_set k v d : NoDup (keys d) -> NoDup (keys (set k v d)).
Proof.
  intros Hd. destruct (get k d) as [v0|] eqn:Hg.
  - rewrite keys_set_present; [done | by eexists].
  - rewrite keys_set_absent by done. apply NoDup_app. split; [done|].
    split; [|apply NoDup_singleton].
    intros x Hx ->%list_elem_of_singleton. by apply get_None_keys in Hg.
Qed.

Lemma set_set k v v' d : set k v' (set k v d) = set k v' d.
Proof.
  induction d as [|[k0 v0] d IH]; simpl.
  - by rewrite decide_True.
  - destruct (decide (k = k0)) as [->|Hk]; simpl.
    + by rewrite decide_True.
    + by rewrite decide_False, IH.
Qed.

Lemma get_del_eq k d : get k (del k d) = None.
Proof.
  induction d as [|[k0 v0] d IH]; simpl; [done|].
  destruct (decide (k = k0)) as [->|Hk]; simpl; [done|].
  by rewrite decide_False.
Qed.

Lemma get_del_ne k k' d : k <> k' -> get k' (del k d) = get k' d.
Proof.
  intros Hne. induction d as [|[k0 v0] d IH]; simpl; [done|].
  destruct (decide (k = k0)) as [->|Hk]; simpl.
  - by rewrite decide_False.
  - by rewrite IH.
Qed.
End dict_facts.

(** A comprehension that filters on a looked-up value is a plain filter
    when every element has a value. *)
Lemma filter_res_lookup {V} (d : list (Z * V)) (f : V -> bool) (l : list Z) :
  (forall p, p ∈ l -> is_Some (get p d)) ->
  filter_res (fun p => rbind (getitem p d) (fun r => Ret (f r))) l
  = Ret (filter (fun p => f <$> get p d = Some true) l).
Proof.
  induction l as [|p l IH]; intros Hl; simpl; [done|].
  destruct (Hl p) as [r Hr]; [left|].
  rewrite IH by (intros q Hq; apply Hl; by right).
  unfold getitem. rewrite Hr. simpl. rewrite filter_cons. simpl.
  rewrite Hr. simpl. destruct (f r).
  - by rewrite decide_True.
  - by rewrite decide_False.
Qed.

Lemma filter_ext_elem {A} (P1 P2 : A -> Prop)
    `{!forall x, Decision (P1 x), !forall x, Decision (P2 x)} (l : list A) :
  (forall x, x ∈ l -> P1 x <-> P2 x) -> filter P1 l = filter P2 l.
Proof.
  induction l as [|a l IH]; intros Hl; [done|].
  rewrite !filter_cons.
  rewrite IH by (intros x Hx; apply Hl; by right).
  destruct (decide (P1 a)) as [H1|H1].
  - rewrite decide_True; [done|]. apply Hl; [left | done].
  - rewrite decide_False; [done|]. intros H2. apply H1, Hl; [left | done].
Qed.

Lemma size_set_filter (P : Z -> Prop) `{!forall x, Decision (P x)} (X : gset Z) :
  size (filter P X) = length (filter P (elements X)).
Proof.
  unfold size, set_size, filter at 1, set_filter. simpl.
  apply Permutation_length, elements_list_to_set, NoDup_filter, NoDup_elements.
Qed.

(** ** Win evaluation *)

Lemma get_game_Some chat_id w g :
  get chat_id (games w) = Some g -> get_game chat_id w = (Ret g, w).
Proof.
  intros Hg. unfold get_game, bind, get_games, lift, getitem. by rewrite Hg.
Qed.

Lemma get_game_None chat_id w :
  get chat_id (games w) = None -> get_game chat_id w = (Raise KeyError, w).
Proof.
  intros Hg. unfold get_game, bind, get_games, lift, getitem. by rewrite Hg.
Qed.

(** C1, as amended.  [check_game_end] reports no winner when nobody is
    alive; otherwise the town wins when no living player is the Mafia,
    else the Mafia wins when the living Mafia are at least as many as the
    other living players, else there is no winner and the game stays. *)
Theorem check_game_end_rule chat_id w g :
  get chat_id (games w) = Some g ->
  roles_cover_alive g ->
  check_game_end chat_id w
  = if decide (alive g = ∅) then no_winner w else win_rule chat_id w g.
Proof.
  intros Hg Hcov.
  unfold check_game_end, bind. rewrite (get_game_Some _ _ _ Hg).
  destruct (decide (alive g = ∅)) as [He|Hne].
  - rewrite He, elements_empty. by rewrite bool_decide_eq_true_2.
  - rewrite bool_decide_eq_false_2
      by (intros He; apply Hne; by apply elements_empty_inv, leibniz_equiv in He).
    rewrite !filter_res_lookup by (intros p Hp; apply Hcov; by apply elem_of_elements).
    unfold win_rule, killers, townsfolk. rewrite !size_set_filter.
    assert (Hm : filter (fun p => (fun r => bool_decide (r = Mafia)) <$> get p (roles g) = Some true)
                   (elements (alive g))
                 = filter (fun p => get p (roles g) = Some Mafia) (elements (alive g))).
    { apply list_filter_iff. intros p. destruct (get p (roles g)) as [r|]; simpl; [|done].
      split.
      - intros [= Hb%bool_decide_eq_true]. by subst.
      - intros [= ->]. done. }
    assert (Hf : filter (fun p => (fun r => bool_decide (r <> Mafia)) <$> get p (roles g) = Some true)
                   (elements (alive g))
                 = filter (fun p => get p (roles g) <> Some Mafia) (elements (alive g))).
    { apply filter_ext_elem. intros p Hin%elem_of_elements.
      destruct (Hcov p Hin) as [r Hr]. rewrite Hr. simpl. split.
      - intros [= Hb%bool_decide_eq_true]. congruence.
      - intros Hp. f_equal. apply bool_decide_eq_true. congruence. }
    rewrite Hm, Hf. unfold lift. cbv beta iota.
    destruct (decide (length (filter (fun p => get p (roles g) = Some Mafia)
                                (elements (alive g))) = 0%nat)) as [H0|H0].
    + rewrite bool_decide_eq_true_2 by done.
      unfold emit, del_game, ret, town_wins. simpl. by rewrite Hg.
    + rewrite bool_decide_eq_false_2 by done.
      case_decide.
      * rewrite bool_decide_eq_true_2 by done.
        unfold emit, del_game, ret, mafia_wins. simpl. by rewrite Hg.
      * by rewrite bool_decide_eq_false_2.
Qed.

Lemma duel_roles_cover : roles_cover_alive duel_game.
Proof.
  intros p Hp. unfold duel_game in *. simpl in *.
  apply elem_of_union in Hp as [->%elem_of_singleton| ->%elem_of_singleton];
    by eexists.
Qed.

Lemma check_game_end_rule_witness :
  check_game_end 5 duel_world
  = if decide (alive duel_game = ∅) then no_winner duel_world
    else win_rule 5 duel_world duel_game.
Proof. apply (check_game_end_rule 5 duel_world duel_game eq_refl duel_roles_cover). Defined.

(** C1 as stated fails where nobody is alive: no living Mafia remains,
    and yet the evaluation reports no winner instead of a win of the town. *)
Lemma check_game_end_nobody_alive :
  get 1 (games lobby_world) = Some new_game
  /\ size (killers new_game) = 0%nat
  /\ check_game_end 1 lobby_world = no_winner lobby_world
  /\ check_game_end 1 lobby_world <> town_wins 1 lobby_world.
Proof. repeat split; try reflexivity. vm_compute. discriminate. Qed.

(** ** Role assignment *)

Lemma swap_Permutation {A} (i j : nat) (x : list A) : swap i j x ≡ₚ x.
Proof.
  unfold swap. destruct (x !! i) as [a|] eqn:Hi; [|done].
  destruct (x !! j) as [b|] eqn:Hj; [|done].
  by apply Permutation_insert_swap.
Qed.

Lemma shuffle_from_Permutation {A} rnd (i : nat) (x : list A) :
  shuffle_from rnd i x ≡ₚ x.
Proof.
  revert x. induction i as [|i IH]; intros x; simpl; [done|].
  rewrite IH. apply swap_Permutation.
Qed.

Lemma shuffle_Permutation {A} rnd (x : list A) : shuffle rnd x ≡ₚ x.
Proof. apply shuffle_from_Permutation. Qed.

Lemma set_absent {K V} `{EqDecision K} (k : K) (v : V) (d : list (K * V)) :
  get k d = None -> set k v d = d ++ [(k, v)].
Proof.
  induction d as [|[k0 v0] d IH]; simpl; [done|].
  destruct (decide (k = k0)); [done|]. intros Hn. by rewrite IH.
Qed.

Lemma foldl_set_NoDup {K V} `{EqDecision K} (l acc : list (K * V)) :
  NoDup (keys (acc ++ l)) ->
  foldl (fun d kv => set kv.1 kv.2 d) acc l = acc ++ l.
Proof.
  revert acc. induction l as [|[k v] l IH]; intros acc Hnd; simpl.
  - by rewrite app_nil_r.
  - rewrite set_absent.
    + rewrite IH; rewrite <-app_assoc; done.
    + apply get_None_keys. unfold keys in *. rewrite fmap_app in Hnd.
      apply NoDup_app in Hnd as (_ & Hdis & _). intros Hin.
      apply (Hdis k Hin). simpl. left.
Qed.

(** [dict(pairs)] keeps a list of pairs with distinct keys as it is. *)
Lemma of_pairs_NoDup {K V} `{EqDecision K} (l : list (K * V)) :
  NoDup (keys l) -> of_pairs l = l.
Proof. intros Hnd. unfold of_pairs. by rewrite foldl_set_NoDup. Qed.

Lemma filter_replicate_eq (r r' : role) (n : nat) :
  length (filter (fun x => x = r) (replicate n r'))
  = if decide (r' = r) then n else 0%nat.
Proof.
  induction n as [|n IH]; simpl.
  - by destruct (decide (r' = r)).
  - rewrite filter_cons. destruct (decide (r' = r)); simpl; by rewrite IH.
Qed.

Lemma assign_roles_unfold rnd (ids : list Z) :
  NoDup ids -> (3 <= length ids)%nat ->
  exists shuffled,
    shuffled ≡ₚ [Mafia; Doktor; Komissar] ++ replicate (length ids - 3) Fuqaro
    /\ assign_roles rnd ids = Ret (zip ids shuffled).
Proof.
  intros Hnd Hn. unfold assign_roles.
  destruct (Nat.ltb_spec (length ids) 3) as [?|_]; [lia|].
  set (rs := [Mafia] ++ [Doktor; Komissar] ++ replicate (length ids - 3) Fuqaro).
  exists (shuffle rnd rs). split; [apply shuffle_Permutation|].
  f_equal. apply of_pairs_NoDup. unfold keys. rewrite fst_zip; [done|].
  rewrite (Permutation_length (shuffle_Permutation rnd rs)).
  unfold rs. simpl. rewrite length_replicate. lia.
Qed.

Lemma count_role_zip (r : role) (ids : list Z) (rs rs0 : list role) :
  rs ≡ₚ rs0 -> (length rs0 <= length ids)%nat ->
  count_role r (zip ids rs) = length (filter (fun x => x = r) rs0).
Proof.
  intros Hp Hl. unfold count_role, values.
  rewrite snd_zip by (by rewrite (Permutation_length Hp)).
  by rewrite Hp.
Qed.

(** C3, as amended.  For [n >= 3] distinct player ids the assignment
    succeeds, its keys are the given ids, each once and in their order,
    and it holds exactly one Mafia, one Komissar, one Doktor and [n - 3]
    Fuqaro. *)
Theorem assign_roles_composition rnd (ids : list Z) :
  NoDup ids -> (3 <= length ids)%nat ->
  exists d,
    assign_roles rnd ids = Ret d
    /\ keys d = ids
    /\ count_role Mafia d = 1%nat
    /\ count_role Komissar d = 1%nat
    /\ count_role Doktor d = 1%nat
    /\ count_role Fuqaro d = (length ids - 3)%nat.
Proof.
  intros Hnd Hn.
  destruct (assign_roles_unfold rnd ids Hnd Hn) as (rs & Hp & ->).
  assert (Hlen : (length ([Mafia; Doktor; Komissar]
                          ++ replicate (length ids - 3) Fuqaro) <= length ids)%nat).
  { simpl. rewrite length_replicate. lia. }
  exists (zip ids rs). split; [done|]. split.
  { unfold keys. apply fst_zip. rewrite (Permutation_length Hp). simpl.
    rewrite length_replicate. lia. }
  rewrite !(count_role_zip _ ids rs _ Hp Hlen). simpl.
  rewrite !filter_cons. simpl.
  repeat split; rewrite filter_replicate_eq; case_decide; congruence.
Qed.

Lemma assign_roles_composition_witness :
  exists d,
    assign_roles draw_zero [1; 2; 3; 4] = Ret d
    /\ keys d = [1; 2; 3; 4]
    /\ count_role Mafia d = 1%nat
    /\ count_role Komissar d = 1%nat
    /\ count_role Doktor d = 1%nat
    /\ count_role Fuqaro d = (length [1; 2; 3; 4] - 3)%nat.
Proof.
  apply (assign_roles_composition draw_zero [1; 2; 3; 4]).
  - compute_done.
  - simpl. lia.
Defined.

(** C3 as stated fails on the number of Fuqaro: three players leave no
    seat for one, while C3 asks for [n - 2] to [n - 1] of them. *)
Lemma assign_roles_three_players_no_civilian :
  exists d,
    assign_roles draw_zero [1; 2; 3] = Ret d
    /\ count_role Fuqaro d = 0%nat
    /\ ~ (3 - 2 <= count_role Fuqaro d <= 3 - 1)%nat.
Proof.
  eexists. split; [reflexivity|]. split; [reflexivity|].
  vm_compute. intros [H _]. inversion H.
Qed.

(** ** Too few players *)

Lemma mem_true {V} (k : Z) (d : list (Z * V)) v :
  get k d = Some v -> mem k d = true.
Proof. intros H. unfold mem. apply bool_decide_eq_true. by eexists. Qed.

Lemma mem_false {V} (k : Z) (d : list (Z * V)) :
  get k d = None -> mem k d = false.
Proof.
  intros H. unfold mem. apply bool_decide_eq_false. rewrite H. by intros [? ?].
Qed.

Lemma too_few_players_begin rnd chat_id w g :
  get chat_id (games w) = Some g ->
  (length (players g) < 3)%nat ->
  begin rnd chat_id w
  = (Ret tt, World (games w) (outbox w ++ [ReplyText NeedThreePlayers])).
Proof.
  intros Hg Hp.
  unfold begin, bind at 1, get_games. cbv beta iota.
  rewrite (mem_true _ _ _ Hg). simpl. unfold bind at 1.
  rewrite (get_game_Some _ _ _ Hg). unfold keys. rewrite length_fmap.
  by destruct (Nat.ltb_spec (length (players g)) 3); [|lia].
Qed.

(** C6.  With fewer than three player ids [assign_roles] raises its
    [ValueError], and [begin] on a game with fewer than three joined
    players answers with the same complaint and leaves [games] as it was. *)
Theorem too_few_players rnd (ids : list Z) chat_id w g :
  (length ids < 3)%nat ->
  get chat_id (games w) = Some g ->
  (length (players g) < 3)%nat ->
  assign_roles rnd ids = Raise ValueError
  /\ begin rnd chat_id w
     = (Ret tt, World (games w) (outbox w ++ [ReplyText NeedThreePlayers])).
Proof.
  intros Hids Hg Hp. split.
  - unfold assign_roles. by destruct (Nat.ltb_spec (length ids) 3); [|lia].
  - by apply (too_few_players_begin rnd chat_id w g).
Qed.

Lemma too_few_players_witness :
  assign_roles draw_zero [1; 2] = Raise ValueError
  /\ begin draw_zero 1 two_joined_world
     = (Ret tt, World (games two_joined_world)
                      (outbox two_joined_world ++ [ReplyText NeedThreePlayers])).
Proof.
  apply (too_few_players draw_zero [1; 2] 1 two_joined_world two_joined).
  - simpl. lia.
  - reflexivity.
  - simpl. lia.
Defined.

(** ** What a handler preserves *)

Section preserves.
Context (R : world -> world -> Prop) `{!PreOrder R}.

Lemma preserves_ret {A} (a : A) : preserves R (ret a).
Proof. intros w r w' [= _ <-]. reflexivity. Qed.

Lemma preserves_raise {A} e : preserves R (@raise A e).
Proof. intros w r w' [= _ <-]. reflexivity. Qed.

Lemma preserves_lift {A} (x : res A) : preserves R (lift x).
Proof. intros w r w' [= _ <-]. reflexivity. Qed.

Lemma preserves_get_games : preserves R get_games.
Proof. intros w r w' [= _ <-]. reflexivity. Qed.

Lemma preserves_bind {A B} (m : M A) (k : A -> M B) :
  preserves R m -> (forall a, preserves R (k a)) -> preserves R (bind m k).
Proof.
  intros Hm Hk w r w'. unfold bind.
  destruct (m w) as [[a|e] w1] eqn:Hmw.
  - intros Hkw. transitivity w1; [by eapply Hm | by eapply Hk].
  - intros [= _ <-]. by eapply Hm.
Qed.

Lemma preserves_get_game chat_id : preserves R (get_game chat_id).
Proof.
  apply preserves_bind; [apply preserves_get_games|].
  intros gs. apply preserves_lift.
Qed.

Lemma preserves_try_catch {A} (m : M A) (h : exn -> M A) :
  preserves R m -> (forall e, preserves R (h e)) -> preserves R (try_catch m h).
Proof.
  intros Hm Hh w r w'. unfold try_catch.
  destruct (m w) as [[a|e] w1] eqn:Hmw.
  - intros [= _ <-]. by eapply Hm.
  - intros Hhw. transitivity w1; [by eapply Hm | by eapply Hh].
Qed.

Lemma preserves_coroutine {A} (m : M A) :
  preserves R m -> preserves R (coroutine m).
Proof.
  intros Hm. apply preserves_try_catch; [done|].
  intros []; apply preserves_raise.
Qed.

Lemma preserves_for_each {A} (l : list A) (f : A -> M unit) :
  (forall a, preserves R (f a)) -> preserves R (for_each l f).
Proof.
  intros Hf. induction l as [|a l IH]; simpl.
  - apply preserves_ret.
  - apply preserves_bind; [apply Hf | intros _; apply IH].
Qed.
End preserves.

Global Instance shrunk_preorder : PreOrder shrunk.
Proof.
  split.
  - intros g. by split.
  - intros g1 g2 g3 [Hp1 Ha1] [Hp2 Ha2]. split; [congruence | set_solver].
Qed.

Global Instance same_votes_preorder : PreOrder same_votes.
Proof.
  split.
  - intros g. reflexivity.
  - intros g1 g2 g3 H1 H2. unfold same_votes in *. congruence.
Qed.

Global Instance outbox_grows_preorder : PreOrder outbox_grows.
Proof.
  split.
  - intros w. exists []. by rewrite app_nil_r.
  - intros w1 w2 w3 [r1 H1] [r2 H2]. exists (r1 ++ r2).
    by rewrite H2, H1, app_assoc.
Qed.

Section games_related.
Context (Q : game -> game -> Prop) `{!PreOrder Q}.

Global Instance games_related_preorder : PreOrder (games_related Q).
Proof.
  split.
  - intros w c g Hg. exists g. split; [done | reflexivity].
  - intros w1 w2 w3 H12 H23 c g3 Hg3.
    destruct (H23 c g3 Hg3) as (g2 & Hg2 & Hq2).
    destruct (H12 c g2 Hg2) as (g1 & Hg1 & Hq1).
    exists g1. split; [done|]. by transitivity g2.
Qed.

Lemma related_emit e : preserves (games_related Q) (emit e).
Proof. intros w r w' [= _ <-] c g Hg. exists g. split; [done | reflexivity]. Qed.

Lemma related_update_game chat_id (f : game -> game) :
  (forall g, Q g (f g)) -> preserves (games_related Q) (update_game chat_id f).
Proof.
  intros Hf w r w'. unfold update_game.
  destruct (get chat_id (games w)) as [g|] eqn:Hg; intros [= _ <-]; [|reflexivity].
  intros c g'. simpl. destruct (decide (chat_id = c)) as [<-|Hc].
  - rewrite get_set_eq. intros [= <-]. exists g. split; [done|]. apply Hf.
  - rewrite get_set_ne by done. intros Hg'. exists g'. split; [done | reflexivity].
Qed.

Lemma related_del_game chat_id : preserves (games_related Q) (del_game chat_id).
Proof.
  intros w r w'. unfold del_game.
  destruct (get chat_id (games w)) as [g|] eqn:Hg; intros [= _ <-]; [|reflexivity].
  intros c g'. simpl. destruct (decide (chat_id = c)) as [<-|Hc].
  - by rewrite get_del_eq.
  - rewrite get_del_ne by done. intros Hg'. exists g'. split; [done | reflexivity].
Qed.
End games_related.

Lemma outbox_grows_emit e : preserves outbox_grows (emit e).
Proof. intros w r w' [= _ <-]. by eexists. Qed.

Lemma outbox_grows_update_game chat_id f :
  preserves outbox_grows (update_game chat_id f).
Proof.
  intros w r w'. unfold update_game.
  destruct (get chat_id (games w)); intros [= _ <-]; [|reflexivity].
  exists []. simpl. by rewrite app_nil_r.
Qed.

Lemma outbox_grows_del_game chat_id : preserves outbox_grows (del_game chat_id).
Proof.
  intros w r w'. unfold del_game.
  destruct (get chat_id (games w)); intros [= _ <-]; [|reflexivity].
  exists []. simpl. by rewrite app_nil_r.
Qed.

(** Steps through a handler, one construct at a time. *)
Ltac preserves_step :=
  first
    [ match goal with |- PreOrder _ => apply _ end
    | apply preserves_ret | apply preserves_raise | apply preserves_lift
    | apply preserves_get_games | apply preserves_get_game
    | apply outbox_grows_emit | apply outbox_grows_del_game
    | apply outbox_grows_update_game
    | apply related_emit | apply related_del_game
    | apply related_update_game; [apply _|]; intros ?;
      first [ reflexivity | split; [reflexivity | simpl; set_solver] ]
    | apply preserves_coroutine | apply preserves_try_catch
    | apply preserves_for_each
    | apply preserves_bind
    | match goal with |- preserves _ (if ?b then _ else _) => destruct b end
    | match goal with |- preserves _ (match ?x with _ => _ end) => destruct x end
    | intros ? ].

Lemma alive_shrinks_check_game_end chat_id :
  preserves alive_shrinks (check_game_end chat_id).
Proof. unfold check_game_end. repeat preserves_step. Qed.

Lemma alive_shrinks_day_breaks chat_id :
  preserves alive_shrinks (day_breaks chat_id).
Proof.
  unfold day_breaks.
  apply (preserves_bind alive_shrinks); [apply alive_shrinks_check_game_end|].
  repeat preserves_step.
Qed.

Lemma alive_shrinks_end_night_phase chat_id :
  preserves alive_shrinks (end_night_phase chat_id).
Proof.
  unfold end_night_phase. cbv zeta.
  repeat first [ apply alive_shrinks_day_breaks | preserves_step ].
Qed.

Lemma alive_shrinks_tally_votes chat_action chat_id :
  preserves alive_shrinks (tally_votes chat_action chat_id).
Proof.
  unfold tally_votes, night_is_due. cbv zeta.
  repeat first [ apply alive_shrinks_check_game_end | preserves_step ].
Qed.

Lemma alive_shrinks_vote lower strip chat_action chat_id user_id args :
  preserves alive_shrinks (vote lower strip chat_action chat_id user_id args).
Proof.
  unfold vote. cbv zeta.
  repeat first [ apply alive_shrinks_tally_votes | preserves_step ].
Qed.

(** ** Running a handler *)

Lemma bind_Ret {A B} (m : M A) (k : A -> M B) w a w1 :
  m w = (Ret a, w1) -> bind m k w = k a w1.
Proof. intros H. unfold bind. by rewrite H. Qed.

Lemma bind_Raise {A B} (m : M A) (k : A -> M B) w e w1 :
  m w = (Raise e, w1) -> bind m k w = (Raise e, w1).
Proof. intros H. unfold bind. by rewrite H. Qed.

Lemma update_game_Some chat_id f w g :
  get chat_id (games w) = Some g ->
  update_game chat_id f w
  = (Ret tt, World (set chat_id (f g) (games w)) (outbox w)).
Proof. intros H. unfold update_game. by rewrite H. Qed.

Lemma for_each_emits {A} (l : list A) (f : A -> M unit) :
  (forall a w, exists out, f a w = (Ret tt, World (games w) (outbox w ++ out))) ->
  forall w, exists out,
    for_each l f w = (Ret tt, World (games w) (outbox w ++ out)).
Proof.
  intros Hf. induction l as [|a l IH]; intros w; simpl.
  - exists []. rewrite app_nil_r. by destruct w.
  - destruct (Hf a w) as [out1 H1]. rewrite (bind_Ret _ _ _ _ _ H1).
    destruct (IH (World (games w) (outbox w ++ out1))) as [out2 H2].
    exists (out1 ++ out2). rewrite H2. simpl. by rewrite app_assoc.
Qed.

(** [begin] on a game with three players or more: roles are drawn, all
    the players are alive, the game is started and it is night. *)
Lemma begin_starts rnd chat_id w g :
  get chat_id (games w) = Some g ->
  (3 <= length (players g))%nat ->
  exists r out,
    assign_roles rnd (keys (players g)) = Ret r
    /\ begin rnd chat_id w
       = (Ret tt,
          World (set chat_id
                   (Game (players g) r (player_set g) true night_phase
                         (votes g) (night_actions g))
                   (games w))
                (outbox w ++ out)).
Proof.
  intros Hg Hn. unfold begin.
  rewrite (bind_Ret _ _ w (games w) w) by done.
  rewrite (mem_true _ _ _ Hg). simpl.
  rewrite (bind_Ret _ _ _ _ _ (get_game_Some _ _ _ Hg)).
  assert (Hlen : length (keys (players g)) = length (players g))
    by (unfold keys; apply length_fmap).
  rewrite Hlen. destruct (Nat.ltb_spec (length (players g)) 3) as [?|_]; [lia|].
  assert (Hr : exists r, assign_roles rnd (keys (players g)) = Ret r).
  { unfold assign_roles. rewrite Hlen.
    destruct (Nat.ltb_spec (length (players g)) 3) as [?|_]; [lia|]. by eexists. }
  destruct Hr as [r Hr]. rewrite Hr.
  destruct (for_each_emits r
              (fun '(uid, role) => emit (SendMessage uid (YourRole role)))
              ltac:(intros [uid ro] w0; by eexists)
              (World (set chat_id
                        (Game (players g) r (player_set g) true night_phase
                              (votes g) (night_actions g)) (games w))
                     (outbox w))) as [out Hout].
  exists r, (out ++ [ReplyText GameBegun]). split; [done|].
  unfold try_catch.
  rewrite (bind_Ret _ _ w r w) by done.
  rewrite (bind_Ret _ _ _ _ _ (update_game_Some _ _ _ _ Hg)).
  erewrite bind_Ret by (apply update_game_Some; simpl; apply get_set_eq).
  erewrite bind_Ret by (apply update_game_Some; simpl; apply get_set_eq).
  erewrite bind_Ret by (apply update_game_Some; simpl; apply get_set_eq).
  simpl. rewrite !set_set. unfold set_phase, set_started, set_alive, set_roles.
  simpl. fold (player_set g).
  rewrite (bind_Ret _ _ _ _ _ Hout). unfold emit. simpl.
  by rewrite app_assoc.
Qed.

(** ** The set of the living *)

Lemma player_set_games_eq g g' : players g' = players g -> player_set g' = player_set g.
Proof. unfold player_set. by intros ->. Qed.

Lemma run_script_reachable lower strip chat_action cs w :
  reachable lower strip chat_action w ->
  reachable lower strip chat_action (run_script lower strip chat_action cs w).
Proof.
  revert w. induction cs as [|c cs IH]; intros w Hw; simpl; [done|].
  apply IH.
  apply (reachable_step _ _ _ w c (handle lower strip chat_action c w).1); [done|].
  by destruct (handle lower strip chat_action c w).
Qed.

(** C7.  [begin] has no test of [started], which [join], [night] and
    [day] have: sent again in a started game it puts the dead back into
    [alive].  [revival_world] is reached from an empty [games]; in its
    game, which is started, Sami (user [3]) is a player and, killed in
    the night, is not alive.  After [begin], whatever the shuffle draws,
    the players are the same and [alive] is the set of all four of them,
    Sami included: it is not a subset of the [alive] before. *)
Theorem begin_revives_the_dead :
  reachable ascii_lower ascii_strip ptb_reply_chat_action revival_world
  /\ get 9 (games revival_world) = Some revival_game
  /\ started revival_game = true
  /\ keys (players revival_game) = [1; 2; 3; 4]
  /\ alive revival_game = {[1; 2; 4]}
  /\ (3 ∉ alive revival_game)
  /\ forall rnd, exists g',
       (begin rnd 9 revival_world).1 = Ret tt
       /\ get 9 (games (begin rnd 9 revival_world).2) = Some g'
       /\ players g' = players revival_game
       /\ alive g' = {[1; 2; 3; 4]}
       /\ 3 ∈ alive g'
       /\ ~ alive g' ⊆ alive revival_game.
Proof.
  assert (Hg : get 9 (games revival_world) = Some revival_game)
    by (vm_compute; reflexivity).
  assert (Ha : alive revival_game = {[1; 2; 4]}) by (vm_compute; reflexivity).
  assert (H3 : 3 ∉ alive revival_game) by (rewrite Ha; clear; set_solver).
  assert (Hp : player_set revival_game = {[1; 2; 3; 4]}) by (vm_compute; reflexivity).
  assert (Hn : (3 <= length (players revival_game))%nat) by (vm_compute; lia).
  split; [apply run_script_reachable, reachable_start|].
  split; [done|]. split; [vm_compute; reflexivity|].
  split; [vm_compute; reflexivity|]. split; [exact Ha|]. split; [exact H3|].
  intros rnd.
  destruct (begin_starts rnd 9 revival_world revival_game Hg Hn) as (r & out & _ & Hb).
  rewrite Hb.
  exists (Game (players revival_game) r (player_set revival_game) true night_phase
               (votes revival_game) (night_actions revival_game)).
  split; [reflexivity|]. split; [apply get_set_eq|].
  split; [reflexivity|].
  change (player_set revival_game = {[1; 2; 3; 4]}
          /\ 3 ∈ player_set revival_game
          /\ ~ player_set revival_game ⊆ alive revival_game).
  rewrite Hp. split; [reflexivity|].
  assert (H3' : 3 ∈ ({[1; 2; 3; 4]} : gset Z)) by (clear; set_solver).
  split; [exact H3'|].
  intros Hsub. exact (H3 (Hsub 3 H3')).
Qed.

(** ** New game *)

(** C10.  [newgame] puts a fresh lobby under the chat id whatever was
    there before, a started game included, and touches no other chat. *)
Theorem newgame_replaces chat_id w :
  newgame chat_id w
  = (Ret tt, World (set chat_id new_game (games w))
                   (outbox w ++ [ReplyText NewGameCreated]))
  /\ get chat_id (games (newgame chat_id w).2) = Some new_game
  /\ (forall c, c <> chat_id ->
        get c (games (newgame chat_id w).2) = get c (games w))
  /\ players new_game = [] /\ roles new_game = [] /\ alive new_game = ∅
  /\ started new_game = false /\ phase new_game = day_phase
  /\ votes new_game = [] /\ night_actions new_game = [].
Proof.
  assert (H : newgame chat_id w
              = (Ret tt, World (set chat_id new_game (games w))
                               (outbox w ++ [ReplyText NewGameCreated])))
    by reflexivity.
  rewrite H. simpl. split; [done|]. split; [apply get_set_eq|].
  split; [|by repeat split].
  intros c Hc. by apply get_set_ne.
Qed.

(** ** Votes *)

Lemma find_target_first lower target_name (alive : gset Z)
    (before after : list (Z * string)) t name :
  lower name = lower target_name ->
  t ∈ alive ->
  (forall u n, (u, n) ∈ before -> lower n = lower target_name -> u ∉ alive) ->
  find_target lower target_name alive (before ++ (t, name) :: after) = Some t.
Proof.
  intros Hn Ht. induction before as [|[u n] before IH]; intros Hb; simpl.
  - by rewrite !bool_decide_eq_true_2.
  - destruct (decide (lower n = lower target_name)) as [Heq|Hne].
    + rewrite (bool_decide_eq_false_2 (u ∈ alive)) by (apply (Hb u n); [left | done]).
      rewrite andb_false_r. apply IH. intros u' n' Hin. apply Hb. by right.
    + rewrite (bool_decide_eq_false_2 _ Hne). simpl.
      apply IH. intros u' n' Hin. apply Hb. by right.
Qed.

(** A vote that passes the checks is recorded and acknowledged, and the
    quorum check follows. *)
Lemma vote_records lower strip chat_action chat_id user_id args w g t :
  get chat_id (games w) = Some g ->
  phase g = day_phase ->
  user_id ∈ alive g ->
  args <> [] ->
  find_target lower (strip (String.concat " " args)) (alive g) (players g) = Some t ->
  t <> 0 ->
  vote lower strip chat_action chat_id user_id args w
  = tally_votes chat_action chat_id
      (World (set chat_id (set_votes (set user_id t (votes g)) g) (games w))
             (outbox w ++ [ReplyText (VoteRecorded (strip (String.concat " " args)))])).
Proof.
  intros Hg Hph Hu Ha Ht Ht0. unfold vote.
  rewrite (bind_Ret _ _ w (games w) w) by done.
  rewrite (mem_true _ _ _ Hg). simpl.
  rewrite (bind_Ret _ _ _ _ _ (get_game_Some _ _ _ Hg)).
  rewrite Hph. rewrite (bool_decide_eq_false_2 (day_phase <> day_phase)) by tauto.
  rewrite (bool_decide_eq_false_2 (user_id ∉ alive g)) by tauto.
  rewrite (bool_decide_eq_false_2 _ Ha).
  rewrite Ht. simpl.
  destruct (Z.eqb_spec t 0) as [?|_]; [done|]. simpl.
  rewrite (bind_Ret _ _ _ _ _ (update_game_Some _ _ _ _ Hg)).
  by erewrite bind_Ret by reflexivity.
Qed.

Lemma tally_votes_no_quorum chat_action chat_id w g :
  get chat_id (games w) = Some g ->
  length (votes g) <> size (alive g) ->
  tally_votes chat_action chat_id w = (Ret tt, w).
Proof.
  intros Hg Hq. unfold tally_votes.
  rewrite (bind_Ret _ _ _ _ _ (get_game_Some _ _ _ Hg)).
  by rewrite (bool_decide_eq_false_2 _ Hq).
Qed.

Lemma votes_kept_check_game_end chat_id :
  preserves votes_kept (check_game_end chat_id).
Proof. unfold check_game_end. repeat preserves_step. Qed.

Lemma outbox_grows_check_game_end chat_id :
  preserves outbox_grows (check_game_end chat_id).
Proof. unfold check_game_end. repeat preserves_step. Qed.

Lemma votes_kept_tally_votes chat_action chat_id :
  preserves votes_kept (tally_votes chat_action chat_id).
Proof.
  unfold tally_votes, night_is_due. cbv zeta.
  repeat first [ apply votes_kept_check_game_end | preserves_step ].
Qed.

Lemma outbox_grows_tally_votes chat_action chat_id :
  preserves outbox_grows (tally_votes chat_action chat_id).
Proof.
  unfold tally_votes, night_is_due. cbv zeta.
  repeat first [ apply outbox_grows_check_game_end | preserves_step ].
Qed.

(** C9.  In a day phase, for a living voter, the target name picks the
    first player in join order who is alive and whose name equals it up
    to case; the acknowledgement is sent and, as long as the game is
    registered, that player is the voter's recorded vote.  The id [0]
    is left out: [if not target_id] takes it for no match. *)
Theorem vote_resolves_name lower strip chat_action chat_id user_id args
    w g before t name after r w' :
  get chat_id (games w) = Some g ->
  phase g = day_phase ->
  user_id ∈ alive g ->
  args <> [] ->
  players g = before ++ (t, name) :: after ->
  lower name = lower (strip (String.concat " " args)) ->
  t ∈ alive g ->
  t <> 0 ->
  (forall u n, (u, n) ∈ before ->
     lower n = lower (strip (String.concat " " args)) -> u ∉ alive g) ->
  vote lower strip chat_action chat_id user_id args w = (r, w') ->
  (exists rest,
     outbox w' = outbox w
                 ++ ReplyText (VoteRecorded (strip (String.concat " " args))) :: rest)
  /\ forall g', get chat_id (games w') = Some g' -> get user_id (votes g') = Some t.
Proof.
  intros Hg Hph Hu Ha Hpl Hn Ht Ht0 Hb Hv.
  assert (Hf : find_target lower (strip (String.concat " " args)) (alive g) (players g)
               = Some t)
    by (rewrite Hpl; by apply find_target_first).
  rewrite (vote_records _ _ _ _ _ _ _ _ _ Hg Hph Hu Ha Hf Ht0) in Hv.
  split.
  - destruct (outbox_grows_tally_votes _ _ _ _ _ Hv) as [rest Hrest].
    exists rest. rewrite Hrest. simpl. by rewrite <-app_assoc.
  - intros g' Hg'.
    destruct (votes_kept_tally_votes _ _ _ _ _ Hv chat_id g' Hg') as (g0 & Hg0 & Hq).
    simpl in Hg0. rewrite get_set_eq in Hg0. injection Hg0 as <-.
    rewrite Hq. simpl. apply get_set_eq.
Qed.

Lemma vote_resolves_name_witness :
  (exists rest,
     outbox (vote ascii_lower ascii_strip ptb_reply_chat_action 9 2 ["ali"]
               namesakes_world).2
     = outbox namesakes_world
       ++ ReplyText (VoteRecorded (ascii_strip (String.concat " " ["ali"]))) :: rest)
  /\ forall g',
       get 9 (games (vote ascii_lower ascii_strip ptb_reply_chat_action 9 2 ["ali"]
                       namesakes_world).2) = Some g' ->
       get 2 (votes g') = Some 1.
Proof.
  apply (vote_resolves_name ascii_lower ascii_strip ptb_reply_chat_action 9 2 ["ali"]
           namesakes_world namesakes_game [(2, "Vali")] 1 "Ali" [(3, "ALI")]
           (vote ascii_lower ascii_strip ptb_reply_chat_action 9 2 ["ali"]
              namesakes_world).1).
  - reflexivity.
  - reflexivity.
  - vm_compute. reflexivity.
  - discriminate.
  - reflexivity.
  - reflexivity.
  - vm_compute. reflexivity.
  - discriminate.
  - intros u n [= -> ->]%list_elem_of_singleton. vm_compute. discriminate.
  - by destruct (vote _ _ _ _ _ _ _).
Defined.

Lemma no_item_without_key {V} (k : Z) (d : list (Z * V)) :
  k ∉ keys d -> filter (fun kv => kv.1 = k) d = [].
Proof.
  unfold keys. induction d as [|[k0 v0] d IH]; csimpl; [done|].
  intros [Hk Hd]%not_elem_of_cons. rewrite filter_cons. simpl.
  rewrite decide_False by done. by apply IH.
Qed.

Lemma one_item_per_key {V} (k : Z) (d : list (Z * V)) :
  NoDup (keys d) -> is_Some (get k d) ->
  length (filter (fun kv => kv.1 = k) d) = 1%nat.
Proof.
  unfold keys. induction d as [|[k0 v0] d IH]; simpl.
  - by intros _ [? ?].
  - intros [Hk0 Hd]%NoDup_cons Hs. rewrite filter_cons. simpl.
    destruct (decide (k = k0)) as [->|Hk].
    + rewrite decide_True by done. simpl.
      by rewrite (no_item_without_key k0 d).
    + rewrite decide_False by done. by apply IH.
Qed.

(** C8.  Before the quorum, two votes of one living voter for different
    living players leave the votes as a single vote for the second would:
    the voter has one recorded vote, the later one. *)
Theorem second_vote_replaces_first lower strip chat_action chat_id user_id
    args1 args2 w g t1 t2 :
  get chat_id (games w) = Some g ->
  phase g = day_phase ->
  user_id ∈ alive g ->
  NoDup (keys (votes g)) ->
  args1 <> [] -> args2 <> [] ->
  find_target lower (strip (String.concat " " args1)) (alive g) (players g) = Some t1 ->
  find_target lower (strip (String.concat " " args2)) (alive g) (players g) = Some t2 ->
  t1 <> 0 -> t2 <> 0 -> t1 <> t2 ->
  length (set user_id t1 (votes g)) <> size (alive g) ->
  exists out votes',
    (vote lower strip chat_action chat_id user_id args2
       (vote lower strip chat_action chat_id user_id args1 w).2)
    = (Ret tt, World (set chat_id (set_votes votes' g) (games w)) out)
    /\ votes' = set user_id t2 (votes g)
    /\ get user_id votes' = Some t2
    /\ length (filter (fun kv => kv.1 = user_id) votes') = 1%nat.
Proof.
  intros Hg Hph Hu Hnd Ha1 Ha2 Hf1 Hf2 H1 H2 Hne Hq.
  rewrite (vote_records _ _ _ _ _ _ _ _ _ Hg Hph Hu Ha1 Hf1 H1).
  erewrite tally_votes_no_quorum;
    [|simpl; apply get_set_eq|done].
  simpl.
  erewrite vote_records;
    [|simpl; apply get_set_eq|done|done|done|exact Hf2|done].
  simpl. rewrite !set_set.
  erewrite tally_votes_no_quorum; [|simpl; apply get_set_eq|].
  - eexists _, _. split; [reflexivity|]. split; [reflexivity|].
    split; [apply get_set_eq|].
    apply one_item_per_key; [by apply NoDup_keys_set|].
    rewrite get_set_eq. by eexists.
  - simpl. by rewrite (length_set_value user_id t2 t1).
Qed.

Lemma second_vote_replaces_first_witness :
  exists out votes',
    (vote ascii_lower ascii_strip ptb_reply_chat_action 9 2 ["vali"]
       (vote ascii_lower ascii_strip ptb_reply_chat_action 9 2 ["ali"]
          namesakes_world).2)
    = (Ret tt, World (set 9 (set_votes votes' namesakes_game) (games namesakes_world)) out)
    /\ votes' = set 2 2 (votes namesakes_game)
    /\ get 2 votes' = Some 2
    /\ length (filter (fun kv => kv.1 = 2) votes') = 1%nat.
Proof.
  apply (second_vote_replaces_first ascii_lower ascii_strip ptb_reply_chat_action
           9 2 ["ali"] ["vali"] namesakes_world namesakes_game 1 2).
  - reflexivity.
  - reflexivity.
  - vm_compute. reflexivity.
  - apply NoDup_nil_2.
  - discriminate.
  - discriminate.
  - vm_compute. reflexivity.
  - vm_compute. reflexivity.
  - discriminate.
  - discriminate.
  - discriminate.
  - vm_compute. discriminate.
Defined.

(** ** Night resolution *)


Lemma map_res_names (pl : list (Z * string)) (l : list Z) :
  (forall u, u ∈ l -> is_Some (get u pl)) ->
  exists names, map_res (fun uid => getitem uid pl) l = Ret names.
Proof.
  induction l as [|u l IH]; intros Hl; simpl; [by eexists|].
  destruct (Hl u) as [n Hn]; [left|]. unfold getitem at 1. rewrite Hn. simpl.
  destruct IH as [names ->]; [intros ? ?; apply Hl; by right|].
  by eexists.
Qed.

Lemma map_res_Forall2 (pl : list (Z * string)) (l : list Z) :
  (forall u, u ∈ l -> is_Some (get u pl)) ->
  exists names,
    map_res (fun uid => getitem uid pl) l = Ret names
    /\ Forall2 (fun u n => get u pl = Some n) l names.
Proof.
  induction l as [|u l IH]; intros Hl; simpl.
  - exists []. by split.
  - destruct (Hl u) as [n Hn]; [left|]. unfold getitem at 1. rewrite Hn. simpl.
    destruct IH as (names & -> & HF); [intros ? ?; apply Hl; by right|].
    exists (n :: names). split; [done|]. by constructor.
Qed.





Lemma truthy_nonzero t : t <> 0 -> truthy (Some t) = true.
Proof. intros H. simpl. by destruct (Z.eqb_spec t 0). Qed.





(** The night of the four: Gani dies, Ali's role is told, the day starts. *)
Example quartet_night :
  night_victim quartet_game = Some 4
  /\ investigation quartet_game = Some ("Ali", Mafia)
  /\ end_night_phase 9 quartet_world
     = (Ret tt,
        World [(9, quartet_morning)]
              [SendMessage 9 (NightReport (Some "Gani") (Some ("Ali", Mafia))
                                          ["Sami"; "Vali"; "Ali"]);
               SendMessage 9 DayStarted]).
Proof. repeat split; vm_compute; reflexivity. Qed.

Lemma assign_roles_counts rnd (ids : list Z) :
  NoDup ids -> (3 <= length ids)%nat ->
  exists d,
    assign_roles rnd ids = Ret d
    /\ keys d = ids
    /\ forall r, count_role r d
                 = match r with Fuqaro => (length ids - 3)%nat | _ => 1%nat end.
Proof.
  intros Hnd Hn.
  destruct (assign_roles_unfold rnd ids Hnd Hn) as (rs & Hp & ->).
  assert (Hlen : length ([Mafia; Doktor; Komissar]
                         ++ replicate (length ids - 3) Fuqaro) = length ids).
  { simpl. rewrite length_replicate. lia. }
  exists (zip ids rs). split; [done|]. split.
  { unfold keys. apply fst_zip. rewrite (Permutation_length Hp). lia. }
  intros r. rewrite (count_role_zip r ids rs _ Hp) by lia. simpl.
  rewrite !filter_cons. simpl.
  destruct r; simpl; rewrite filter_replicate_eq; by case_decide.
Qed.

Lemma count_role_positive (r : role) (d : list (Z * role)) :
  (0 < count_role r d)%nat -> r ∈ values d.
Proof.
  unfold count_role. destruct (filter (fun x => x = r) (values d)) as [|x l] eqn:Hf.
  - simpl. lia.
  - intros _. assert (Hx : x ∈ filter (fun x => x = r) (values d)) by (rewrite Hf; left).
    apply list_elem_of_filter in Hx as [-> Hin]. done.
Qed.

(** [begin] leaves a game ready for its first night. *)
Lemma begin_night_ready rnd chat_id w g :
  get chat_id (games w) = Some g ->
  NoDup (keys (players g)) ->
  (3 <= length (players g))%nat ->
  night_actions g = [] ->
  exists g',
    get chat_id (games (begin rnd chat_id w).2) = Some g' /\ night_ready g'.
Proof.
  intros Hg Hnd Hn Hna.
  destruct (begin_starts rnd chat_id w g Hg Hn) as (r & out & Hr & Hb).
  rewrite Hb. simpl. rewrite get_set_eq. eexists. split; [done|].
  destruct (assign_roles_counts rnd (keys (players g)) Hnd) as (d & Hd & Hk & Hs).
  { unfold keys. by rewrite length_fmap. }
  rewrite Hr in Hd. injection Hd as <-.
  split; simpl.
  - intros u Hu. apply get_Some_keys. unfold player_set in Hu.
    by apply elem_of_list_to_set in Hu.
  - intros u. by rewrite !get_Some_keys, Hk.
  - apply count_role_positive. rewrite (Hs Komissar). lia.
  - intros s t. by rewrite Hna.
Qed.

(** In a started game with distinct player ids, living players, and the
    roles [begin] deals, only the submitted targets are left to require. *)
Lemma started_night_ready g :
  wf_game g ->
  started g = true ->
  (forall s t, get s (night_actions g) = Some t ->
     t <> 0 /\ is_Some (get t (players g))) ->
  night_ready g.
Proof.
  intros Hwf Hs Ht.
  destruct (wf_started g Hwf Hs) as (Hk & _ & _ & Hc & _).
  split.
  - intros u Hu. apply get_Some_keys.
    apply (wf_alive g Hwf) in Hu. unfold player_set in Hu.
    by apply elem_of_list_to_set in Hu.
  - intros u. by rewrite !get_Some_keys, Hk.
  - apply count_role_positive. rewrite Hc. lia.
  - exact Ht.
Qed.

(** ** Button callbacks *)

Lemma find_chat_None user_id (gs : list (Z * game)) :
  (forall cid g, (cid, g) ∈ gs -> ~ living_in user_id g) ->
  find_chat user_id gs = None.
Proof.
  induction gs as [|[cid g] gs IH]; intros Hgs; simpl; [done|].
  assert (Hn : ~ living_in user_id g) by (apply (Hgs cid); left).
  destruct (mem user_id (players g) && bool_decide (user_id ∈ alive g)) eqn:Hb.
  - exfalso. apply Hn. apply andb_true_iff in Hb as [Hm Ha]. split.
    + by apply bool_decide_eq_true in Hm.
    + by apply bool_decide_eq_true in Ha.
  - apply IH. intros cid' g' Hin. apply (Hgs cid'). by right.
Qed.

Lemma find_chat_Some user_id (gs : list (Z * game)) cid :
  find_chat user_id gs = Some cid -> is_Some (get cid gs).
Proof.
  induction gs as [|[c g] gs IH]; simpl; [done|].
  destruct (mem user_id (players g) && bool_decide (user_id ∈ alive g)).
  - intros [= <-]. rewrite decide_True by done. by eexists.
  - intros H. destruct (decide (cid = c)); [by eexists | by apply IH].
Qed.

Lemma living_in_test user_id g :
  mem user_id (players g) && bool_decide (user_id ∈ alive g) = true
  <-> living_in user_id g.
Proof.
  unfold living_in, mem. rewrite andb_true_iff, !bool_decide_eq_true. done.
Qed.

Lemma find_chat_first user_id (before after : list (Z * game)) cid g :
  living_in user_id g ->
  (forall c g0, (c, g0) ∈ before -> ~ living_in user_id g0) ->
  find_chat user_id (before ++ (cid, g) :: after) = Some cid.
Proof.
  intros Hl. induction before as [|[c g0] before IH]; intros Hb; simpl.
  - by rewrite (proj2 (living_in_test user_id g) Hl).
  - destruct (mem user_id (players g0) && bool_decide (user_id ∈ alive g0)) eqn:Ht.
    + exfalso. apply (Hb c g0); [left|]. by apply living_in_test.
    + apply IH. intros c' g' Hin. apply (Hb c'). by right.
Qed.

Lemma first_living_game user_id (gs : list (Z * game)) :
  (exists c g0, (c, g0) ∈ gs /\ living_in user_id g0) ->
  exists before cid g after,
    gs = before ++ (cid, g) :: after
    /\ living_in user_id g
    /\ forall c g0, (c, g0) ∈ before -> ~ living_in user_id g0.
Proof.
  induction gs as [|[c g] gs IH]; intros (c0 & g0 & Hin & Hl).
  - by apply elem_of_nil in Hin.
  - destruct (decide (living_in user_id g)) as [Hg|Hg].
    + exists [], c, g, gs. split; [done|]. split; [done|].
      intros ? ? ?%elem_of_nil. done.
    + apply elem_of_cons in Hin as [[= -> ->]|Hin]; [done|].
      destruct IH as (before & cid & g1 & after & -> & Hl1 & Hb).
      { by exists c0, g0. }
      exists ((c, g) :: before), cid, g1, after. split; [done|]. split; [done|].
      intros c' g' [[= -> ->]|Hin']%elem_of_cons; [done | by apply (Hb c')].
Qed.

Lemma get_middle {V} (before after : list (Z * V)) k v :
  k ∉ keys before -> get k (before ++ (k, v) :: after) = Some v.
Proof.
  unfold keys. induction before as [|[k0 v0] before IH]; csimpl.
  - intros _. by rewrite decide_True.
  - intros [Hk Hb]%not_elem_of_cons. rewrite decide_False by done. by apply IH.
Qed.

Lemma set_middle {V} (before after : list (Z * V)) k v v' :
  k ∉ keys before ->
  set k v' (before ++ (k, v) :: after) = before ++ (k, v') :: after.
Proof.
  unfold keys. induction before as [|[k0 v0] before IH]; csimpl.
  - intros _. by rewrite decide_True.
  - intros [Hk Hb]%not_elem_of_cons. rewrite decide_False by done.
    by rewrite IH.
Qed.

(** C2, as amended.  [button_handler] turns a submission down, with every
    game unchanged, when the actor is not a living player of any game.
    An actor who is a living player of some game is found in the first
    such game, in the order of [games]; the target is written under the
    slot of that game and of no other, whatever its phase and whatever
    the target, the other slots and the rest of the game staying as they
    are, and is acknowledged under the target's name there, or the
    handler raises [KeyError] after the write when that game has no such
    player.  The chat id [0] is left out: [if not target_chat]
    takes it for no game. *)
Theorem button_handler_checks user_id data w :
  ((forall cid g, (cid, g) ∈ games w -> ~ living_in user_id g) ->
   button_handler user_id data w
   = (Ret tt, World (games w) (outbox w ++ [ReplyText NotInAnyGame])))
  /\ ((exists c g0, (c, g0) ∈ games w /\ living_in user_id g0) ->
      exists before cid g after,
        games w = before ++ (cid, g) :: after
        /\ living_in user_id g
        /\ forall c g0, (c, g0) ∈ before -> ~ living_in user_id g0)
  /\ (forall before cid g after s t,
        games w = before ++ (cid, g) :: after ->
        living_in user_id g ->
        (forall c g0, (c, g0) ∈ before -> ~ living_in user_id g0) ->
        cid ∉ keys before ->
        cid <> 0 ->
        exists actions,
          get s actions = Some t
          /\ (forall s', s' <> s -> get s' actions = get s' (night_actions g))
          /\ button_handler user_id (Chosen s t) w
             = match get t (players g) with
               | Some name =>
                   (Ret tt,
                    World (before
                           ++ (cid, Game (players g) (roles g) (alive g) (started g)
                                         (phase g) (votes g) actions)
                              :: after)
                          (outbox w ++ [EditText (chosen_text s name)]))
               | None =>
                   (Raise KeyError,
                    World (before
                           ++ (cid, Game (players g) (roles g) (alive g) (started g)
                                         (phase g) (votes g) actions)
                              :: after)
                          (outbox w))
               end).
Proof.
  split; [|split].
  - intros Hdead. unfold button_handler.
    rewrite (bind_Ret _ _ w (games w) w) by done.
    by rewrite (find_chat_None _ _ Hdead).
  - apply first_living_game.
  - intros before cid g after s t Hgs Hl Hb Hk Hcid.
    exists (set s t (night_actions g)).
    split; [apply get_set_eq|].
    split; [by intros s' Hs'; apply get_set_ne|].
    change (Game (players g) (roles g) (alive g) (started g) (phase g) (votes g)
                 (set s t (night_actions g)))
      with (set_night_actions (set s t (night_actions g)) g).
    destruct w as [gs ob]. simpl in Hgs. subst gs.
    assert (Hg : get cid (before ++ (cid, g) :: after) = Some g)
      by (by apply get_middle).
    unfold button_handler.
    erewrite bind_Ret by reflexivity. simpl.
    rewrite (find_chat_first _ _ _ _ _ Hl Hb).
    rewrite (truthy_nonzero cid Hcid). simpl.
    erewrite bind_Ret by (by apply get_game_Some).
    erewrite bind_Ret by (by apply update_game_Some).
    simpl. rewrite (set_middle _ _ _ _ _ Hk).
    unfold bind, lift, emit, getitem. by destruct (get t (players g)).
Qed.

Lemma button_handler_checks_witness :
  button_handler 4 (Chosen mafia 1) two_chats_world
  = (Ret tt, World (games two_chats_world)
                   (outbox two_chats_world ++ [ReplyText NotInAnyGame]))
  /\ exists actions,
       get mafia actions = Some 3
       /\ (forall s', s' <> mafia ->
              get s' actions = get s' (night_actions quartet_morning))
       /\ button_handler 1 (Chosen mafia 3) two_chats_world
          = match get 3 (players quartet_morning) with
            | Some name =>
                (Ret tt,
                 World ([] ++ (9, Game (players quartet_morning) (roles quartet_morning)
                                       (alive quartet_morning) (started quartet_morning)
                                       (phase quartet_morning) (votes quartet_morning)
                                       actions)
                              :: [(11, namesakes_game)])
                       (outbox two_chats_world ++ [EditText (chosen_text mafia name)]))
            | None =>
                (Raise KeyError,
                 World ([] ++ (9, Game (players quartet_morning) (roles quartet_morning)
                                       (alive quartet_morning) (started quartet_morning)
                                       (phase quartet_morning) (votes quartet_morning)
                                       actions)
                              :: [(11, namesakes_game)])
                       (outbox two_chats_world))
            end.
Proof.
  split.
  - apply (proj1 (button_handler_checks 4 (Chosen mafia 1) two_chats_world)).
    intros cid g Hin [Hp Ha]. revert Hp Ha.
    apply elem_of_cons in Hin as [[= -> ->]|[= -> ->]%list_elem_of_singleton];
      vm_compute.
    + intros _. discriminate.
    + by intros [? ?].
  - apply (proj2 (proj2 (button_handler_checks 1 OtherData two_chats_world))
             [] 9 quartet_morning [(11, namesakes_game)] mafia 3).
    + reflexivity.
    + split; [by eexists | vm_compute; reflexivity].
    + intros c g0 ?%elem_of_nil. done.
    + apply not_elem_of_nil.
    + discriminate.
Defined.

(** C2 as stated fails: a choice made by day is written and acknowledged;
    so is, by night, the Mafia's choice of itself and its choice of a
    dead player. *)
Lemma button_handler_no_phase_or_target_check :
  phase quartet_morning = day_phase
  /\ button_handler 1 (Chosen mafia 2) quartet_day_world
     = (Ret tt,
        World [(9, set_night_actions [(mafia, 2); (doctor, 2); (sheriff, 1)]
                     quartet_morning)]
              [EditText (KillChosen "Vali")])
  /\ phase quartet_second_night = night_phase
  /\ button_handler 1 (Chosen mafia 1) quartet_second_night_world
     = (Ret tt,
        World [(9, set_night_actions [(mafia, 1)] quartet_second_night)]
              [EditText (KillChosen "Ali")])
  /\ (4 ∉ alive quartet_second_night)
  /\ button_handler 1 (Chosen mafia 4) quartet_second_night_world
     = (Ret tt,
        World [(9, set_night_actions [(mafia, 4)] quartet_second_night)]
              [EditText (KillChosen "Gani")]).
Proof. repeat split; try (vm_compute; reflexivity). vm_compute. discriminate. Qed.

(** ** The tally *)

Lemma occurrences_values (t : Z) (votes : list (Z * Z)) :
  length (filter (fun v => v = t) (values votes)) = votes_for t votes.
Proof.
  unfold votes_for, values. induction votes as [|[k v] votes IH]; csimpl; [done|].
  rewrite !filter_cons. simpl. destruct (decide (v = t)); simpl; by rewrite IH.
Qed.

Lemma count_step_get (acc : list (Z * nat)) (l : list Z) (t : Z) :
  get t (foldl (fun vote_count v =>
                  set v (default 0%nat (get v vote_count) + 1)%nat vote_count) acc l)
  = match get t acc with
    | Some n => Some (n + length (filter (fun v => v = t) l))%nat
    | None =>
        if decide (length (filter (fun v => v = t) l) = 0%nat) then None
        else Some (length (filter (fun v => v = t) l))
    end.
Proof.
  revert acc. induction l as [|v l IH]; intros acc; simpl.
  - destruct (get t acc); [f_equal; lia | done].
  - rewrite IH, filter_cons. destruct (decide (v = t)) as [->|Hv].
    + rewrite get_set_eq. simpl. destruct (get t acc); simpl; f_equal; lia.
    + rewrite get_set_ne by done. done.
Qed.

Lemma count_votes_get (votes : list (Z * Z)) (t : Z) :
  get t (count_votes votes)
  = if decide (votes_for t votes = 0%nat) then None else Some (votes_for t votes).
Proof. unfold count_votes. by rewrite count_step_get, occurrences_values. Qed.

Lemma count_votes_NoDup (votes : list (Z * Z)) : NoDup (keys (count_votes votes)).
Proof.
  unfold count_votes.
  assert (H : forall l (acc : list (Z * nat)), NoDup (keys acc) ->
            NoDup (keys (foldl (fun vote_count v =>
                     set v (default 0%nat (get v vote_count) + 1)%nat vote_count) acc l))).
  { induction l as [|v l IH]; intros acc Hacc; simpl; [done|].
    apply IH. by apply NoDup_keys_set. }
  apply H. apply NoDup_nil_2.
Qed.

Lemma elem_of_dict {K V} `{EqDecision K} (k : K) (v : V) (d : list (K * V)) :
  NoDup (keys d) -> (k, v) ∈ d <-> get k d = Some v.
Proof.
  unfold keys. induction d as [|[k0 v0] d IH]; csimpl.
  - intros _. split; [by intros ?%elem_of_nil | done].
  - intros [Hk0 Hd]%NoDup_cons. rewrite elem_of_cons.
    destruct (decide (k = k0)) as [->|Hk].
    + split.
      * intros [[= ->]|Hin]; [done|]. exfalso. apply Hk0.
        apply list_elem_of_fmap. by exists (k0, v).
      * intros [= ->]. by left.
    + rewrite <-IH by done. split; [intros [[= -> ->]|?]; done | by right].
Qed.

Lemma foldl_max_spec (l : list nat) (n : nat) :
  (n <= foldl Nat.max n l)%nat
  /\ (forall x, x ∈ l -> x <= foldl Nat.max n l)%nat
  /\ (foldl Nat.max n l = n \/ foldl Nat.max n l ∈ l).
Proof.
  revert n. induction l as [|y l IH]; intros n; simpl.
  - split; [done|]. split; [by intros x ?%elem_of_nil | by left].
  - destruct (IH (Nat.max n y)) as (H1 & H2 & H3). split; [lia|]. split.
    + intros x [->|Hx]%elem_of_cons; [lia | by apply H2].
    + destruct H3 as [H3|H3].
      * rewrite H3. destruct (Nat.max_spec n y) as [[_ ->]|[_ ->]];
          [right; left | by left].
      * right. by right.
Qed.

Lemma max_of_spec (l : list nat) :
  l <> [] ->
  exists m, max_of l = Ret m /\ m ∈ l /\ forall x, x ∈ l -> (x <= m)%nat.
Proof.
  destruct l as [|n l]; [done|]. intros _. simpl.
  destruct (foldl_max_spec l n) as (H1 & H2 & H3).
  eexists. split; [done|]. split.
  - destruct H3 as [->|H3]; [left | by right].
  - intros x [->|Hx]%elem_of_cons; [done | by apply H2].
Qed.

Lemma elem_of_keys_filter {K V} `{EqDecision K} (P : K * V -> Prop)
    `{!forall x, Decision (P x)} (d : list (K * V)) k :
  k ∈ keys (filter P d) <-> exists v, (k, v) ∈ d /\ P (k, v).
Proof.
  unfold keys. rewrite list_elem_of_fmap. split.
  - intros ([k' v] & -> & [HP Hin]%list_elem_of_filter). by exists v.
  - intros (v & Hin & HP). exists (k, v). split; [done|].
    by apply list_elem_of_filter.
Qed.

Lemma NoDup_keys_filter {K V} `{EqDecision K} (P : K * V -> Prop)
    `{!forall x, Decision (P x)} (d : list (K * V)) :
  NoDup (keys d) -> NoDup (keys (filter P d)).
Proof.
  induction d as [|[k v] d IH]; [done|].
  unfold keys in *. csimpl. intros [Hk Hd]%NoDup_cons. rewrite filter_cons.
  destruct (decide (P (k, v))); [|by apply IH].
  csimpl. apply NoDup_cons. split; [|by apply IH].
  intros (v' & Hin & _)%elem_of_keys_filter. apply Hk.
  apply list_elem_of_fmap. by exists (k, v').
Qed.

Lemma only_element {A} (l : list A) (t : A) :
  NoDup l -> t ∈ l -> (forall x, x ∈ l -> x = t) -> l = [t].
Proof.
  destruct l as [|a l]; [by intros _ ?%elem_of_nil|].
  intros [Ha Hl]%NoDup_cons _ Hall.
  assert (a = t) as -> by (apply Hall; left).
  destruct l as [|b l]; [done|]. exfalso. apply Ha.
  assert (b = t) as -> by (apply Hall; right; left). left.
Qed.

(** The candidates the tally computes are the players who lead. *)
Lemma candidates_lead (votes : list (Z * Z)) :
  votes <> [] ->
  exists m,
    max_of (values (count_votes votes)) = Ret m
    /\ NoDup (keys (filter (fun uc => uc.2 = m) (count_votes votes)))
    /\ forall t, t ∈ keys (filter (fun uc => uc.2 = m) (count_votes votes))
                 <-> leads votes t.
Proof.
  intros Hne.
  assert (Hget : forall t n, get t (count_votes votes) = Some n <->
                             votes_for t votes = n /\ n <> 0%nat).
  { intros t n. rewrite count_votes_get. case_decide; split.
    - done.
    - intros [? ?]. congruence.
    - intros [= <-]. done.
    - intros [-> _]. done. }
  assert (Hin : forall t n, (t, n) ∈ count_votes votes <->
                            votes_for t votes = n /\ n <> 0%nat).
  { intros t n. rewrite <-Hget. apply elem_of_dict, count_votes_NoDup. }
  assert (Hvals : forall n, n ∈ values (count_votes votes) <->
                            exists t, votes_for t votes = n /\ n <> 0%nat).
  { intros n. unfold values. rewrite list_elem_of_fmap. split.
    - intros ([t n'] & -> & Htn). exists t. by apply Hin.
    - intros (t & Ht). exists (t, n). split; [done | by apply Hin]. }
  destruct (max_of_spec (values (count_votes votes))) as (m & Hm & Hmin & Hmax).
  { destruct votes as [|[v t] votes]; [done|].
    assert (H1 : votes_for t ((v, t) :: votes) ∈ values (count_votes ((v, t) :: votes))).
    { apply Hvals. exists t. split; [done|]. unfold votes_for.
      rewrite filter_cons. simpl. by rewrite decide_True. }
    intros Hnil. rewrite Hnil in H1. by apply elem_of_nil in H1. }
  exists m. split; [done|]. split; [apply NoDup_keys_filter, count_votes_NoDup|].
  apply Hvals in Hmin as (t0 & Ht0 & Hm0).
  intros t. rewrite elem_of_keys_filter. split.
  - intros (n & [Hn Hn0]%Hin & Heq). simpl in Heq.
    assert (Hvt : votes_for t votes = m) by congruence.
    assert (Hm1 : m <> 0%nat) by congruence.
    split; [lia|].
    intros t'. rewrite Hvt. destruct (decide (votes_for t' votes = 0%nat)) as [->|H0]; [lia|].
    apply Hmax, Hvals. by exists t'.
  - intros [Hpos Hall]. exists m. split; [|done]. apply Hin. split; [|done].
    apply Nat.le_antisymm.
    + apply Hmax, Hvals. exists t. split; [done | lia].
    + rewrite <-Ht0. apply Hall.
Qed.

(** X18.  The tally at the quorum.  With a single leader, that player
    is taken out of [alive] and nothing else in the game changes; what
    follows depends on the call [reply_chat_action]: if it returns, the
    elimination is announced and the win check follows; if it raises,
    the handler ends there.  With several leaders no game changes, the
    tie is announced, and the win check follows. *)
Lemma tally_votes_rule chat_action chat_id w g :
  get chat_id (games w) = Some g ->
  length (votes g) = size (alive g) ->
  votes g <> [] ->
  (forall t, leads (votes g) t -> is_Some (get t (players g))) ->
  (forall t, leads (votes g) t -> (forall t', leads (votes g) t' -> t' = t) ->
     exists name,
       get t (players g) = Some name
       /\ tally_votes chat_action chat_id w
          = match chat_action with
            | Ret _ =>
                night_is_due chat_id
                  (World (set chat_id
                            (Game (players g) (roles g) (alive g ∖ {[t]}) (started g)
                                  (phase g) (votes g) (night_actions g))
                            (games w))
                         (outbox w ++ [ReplyText (Eliminated name)]))
            | Raise e =>
                (Raise e,
                 World (set chat_id
                          (Game (players g) (roles g) (alive g ∖ {[t]}) (started g)
                                (phase g) (votes g) (night_actions g))
                          (games w))
                       (outbox w))
            end)
  /\ (forall t t', leads (votes g) t -> leads (votes g) t' -> t <> t' ->
        tally_votes chat_action chat_id w
        = night_is_due chat_id
            (World (games w) (outbox w ++ [ReplyText TieNobodyEliminated]))).
Proof.
  intros Hg Hq Hne Hnames.
  destruct (candidates_lead (votes g) Hne) as (m & Hm & Hnd & Hcand).
  assert (Hstart : forall k : M unit,
            (forall w0, get chat_id (games w0) = Some g -> w0 = w ->
               ((if bool_decide
                       (length (filter (fun uc => uc.2 = m) (count_votes (votes g))).*1
                        = 1%nat)
                 then
                   update_game chat_id
                     (discard (default 0
                        (head (filter (fun uc => uc.2 = m) (count_votes (votes g))).*1))) ;;;
                   lift chat_action ;;;
                   name <- lift (getitem
                             (default 0
                                (head (filter (fun uc => uc.2 = m)
                                         (count_votes (votes g))).*1))
                             (players g)) ;;
                   emit (ReplyText (Eliminated name))
                 else emit (ReplyText TieNobodyEliminated)) ;;;
                night_is_due chat_id) w0 = k w0) ->
            tally_votes chat_action chat_id w = k w).
  { intros k Hk. unfold tally_votes.
    rewrite (bind_Ret _ _ _ _ _ (get_game_Some _ _ _ Hg)).
    rewrite (bool_decide_eq_true_2 _ Hq). cbv zeta. rewrite Hm.
    erewrite bind_Ret by reflexivity. by apply Hk. }
  fold (keys (filter (fun uc : Z * nat => uc.2 = m) (count_votes (votes g)))) in Hstart.
  split.
  - intros t Ht Huniq. destruct (Hnames t Ht) as [name Hname]. exists name.
    split; [done|].
    assert (Hl : keys (filter (fun uc : Z * nat => uc.2 = m) (count_votes (votes g))) = [t]).
    { apply only_element; [done | by apply Hcand|].
      intros x Hx. by apply Huniq, Hcand. }
    rewrite Hl in Hstart. simpl in Hstart.
    destruct chat_action as [[]|e].
    + apply (Hstart (fun w0 => night_is_due chat_id
                 (World (set chat_id (discard t g) (games w))
                        (outbox w ++ [ReplyText (Eliminated name)])))).
      intros w0 Hg0 ->.
      rewrite (bind_Ret _ _ _ tt
                 (World (set chat_id (discard t g) (games w))
                        (outbox w ++ [ReplyText (Eliminated name)]))); [done|].
      rewrite (bind_Ret _ _ _ _ _ (update_game_Some _ _ _ _ Hg)).
      unfold getitem. rewrite Hname. reflexivity.
    + apply (Hstart (fun w0 =>
                 (Raise e, World (set chat_id (discard t g) (games w)) (outbox w)))).
      intros w0 Hg0 ->.
      rewrite (bind_Raise _ _ _ e
                 (World (set chat_id (discard t g) (games w)) (outbox w))); [done|].
      rewrite (bind_Ret _ _ _ _ _ (update_game_Some _ _ _ _ Hg)).
      reflexivity.
  - intros t t' Ht Ht' Hdiff.
    apply (Hstart (fun w0 => night_is_due chat_id
               (World (games w) (outbox w ++ [ReplyText TieNobodyEliminated])))).
    intros w0 Hg0 ->.
    rewrite bool_decide_eq_false_2.
    + by erewrite bind_Ret by reflexivity.
    + intros Hlen. apply Hcand in Ht, Ht'. revert Ht Ht' Hlen.
      generalize (keys (filter (fun uc : Z * nat => uc.2 = m) (count_votes (votes g)))).
      intros [|a [|b l]]; simpl; try done.
      intros Ht%list_elem_of_singleton Ht'%list_elem_of_singleton. congruence.
Qed.

(** ** The vote that completes the quorum *)

(** C5.  The quorum vote with a single leader does not get as far as
    specified.  Ali, the Mafia, holds the votes of Ali and Vali; Sami's
    vote completes the quorum of the three living.  Ali is taken out of
    [alive], and then [reply_chat_action(chat_id=chat_id)] raises
    [TypeError]: the win evaluator does not run and the phase is not set,
    so the game stays registered in its day phase with no living Mafia.
    Had the call returned, the handler would have gone on as
    specified: elimination announced, win of the town found, game removed. *)
Theorem quorum_vote_stops_at_chat_action :
  length (votes quartet_two_votes) = 2%nat
  /\ size (alive quartet_two_votes) = 3%nat
  /\ vote ascii_lower ascii_strip ptb_reply_chat_action 9 3 ["ALI"]
          quartet_two_votes_world
     = (Raise TypeError,
        World [(9, quartet_ali_out)] [ReplyText (VoteRecorded "ALI")])
  /\ alive quartet_ali_out = alive quartet_two_votes ∖ {[1]}
  /\ phase quartet_ali_out = day_phase
  /\ killers quartet_ali_out = ∅
  /\ vote ascii_lower ascii_strip (Ret tt) 9 3 ["ALI"] quartet_two_votes_world
     = (Ret tt,
        World [] [ReplyText (VoteRecorded "ALI"); ReplyText (Eliminated "Ali");
                  Unawaited 9 TownWins]).
Proof. repeat split; vm_compute; reflexivity. Qed.

(** * Further properties of the handlers *)

(** ** The win check and the registry *)

Lemma filter_res_lookup_raise {V} (d : list (Z * V)) (f : V -> bool) (l : list Z) e :
  filter_res (fun p => rbind (getitem p d) (fun r => Ret (f r))) l = Raise e ->
  e = KeyError.
Proof.
  induction l as [|p l IH]; simpl; [done|].
  unfold getitem at 1. destruct (get p d) as [v|]; simpl; [|by intros [= <-]].
  destruct (filter_res _ l) as [r|e0]; simpl; [done|].
  intros [= <-]. by apply IH.
Qed.

Lemma check_game_end_frame chat_id w r w' :
  check_game_end chat_id w = (r, w') ->
  match r with
  | Ret true =>
      is_Some (get chat_id (games w))
      /\ games w' = del chat_id (games w)
      /\ exists t, outbox w' = outbox w ++ [Unawaited chat_id t]
                   /\ (t = TownWins \/ t = MafiaWins)
  | Ret false => w' = w
  | Raise e => w' = w /\ e = KeyError
  end.
Proof.
  unfold check_game_end, bind.
  destruct (get chat_id (games w)) as [g|] eqn:Hg.
  - rewrite (get_game_Some _ _ _ Hg).
    destruct (bool_decide (elements (alive g) = [])); [by intros [= <- <-]|].
    unfold lift.
    destruct (filter_res
                (fun p => rbind (getitem p (roles g))
                            (fun r => Ret (bool_decide (r = Mafia))))
                (elements (alive g))) as [mafia|e] eqn:Hm.
    + destruct (filter_res
                  (fun p => rbind (getitem p (roles g))
                              (fun r => Ret (bool_decide (r <> Mafia))))
                  (elements (alive g))) as [fuqaro|e] eqn:Hf.
      * destruct (bool_decide (length mafia = 0%nat)).
        { unfold emit, del_game, ret. simpl. rewrite Hg. intros [= <- <-].
          split; [by eexists|]. split; [done|]. eexists. split; [done | by left]. }
        destruct (bool_decide (length fuqaro <= length mafia)%nat).
        { unfold emit, del_game, ret. simpl. rewrite Hg. intros [= <- <-].
          split; [by eexists|]. split; [done|]. eexists. split; [done | by right]. }
        by intros [= <- <-].
      * intros [= <- <-]. split; [done|]. by apply filter_res_lookup_raise in Hf.
    + intros [= <- <-]. split; [done|]. by apply filter_res_lookup_raise in Hm.
  - rewrite (get_game_None _ _ Hg). by intros [= <- <-].
Qed.

(** X1.  [check_game_end] answers [True] exactly when it has taken the game
    out of [games]; when it answers [False], or raises, nothing has
    changed. *)
Theorem check_game_end_removes chat_id w g :
  get chat_id (games w) = Some g ->
  ((check_game_end chat_id w).1 = Ret true
   <-> get chat_id (games (check_game_end chat_id w).2) = None)
  /\ ((check_game_end chat_id w).1 <> Ret true ->
      (check_game_end chat_id w).2 = w).
Proof.
  intros Hg. destruct (check_game_end chat_id w) as [r w'] eqn:Hc.
  apply check_game_end_frame in Hc. simpl.
  destruct r as [[|]|e].
  - destruct Hc as (_ & Hdel & _). split; [|done].
    split; [|done]. intros _. rewrite Hdel. apply get_del_eq.
  - subst w'. split; [|done]. split; [done|]. by rewrite Hg.
  - destruct Hc as [-> _]. split; [|done]. split; [done|]. by rewrite Hg.
Qed.

Lemma check_game_end_removes_witness :
  ((check_game_end 5 duel_world).1 = Ret true
   <-> get 5 (games (check_game_end 5 duel_world).2) = None)
  /\ ((check_game_end 5 duel_world).1 <> Ret true ->
      (check_game_end 5 duel_world).2 = duel_world).
Proof. apply (check_game_end_removes 5 duel_world duel_game). reflexivity. Defined.

(** X2.  a command for a chat that has no game, be it that none was made
    or that a win has removed it, is answered with the complaint of its
    handler and changes nothing. *)
Theorem no_game_no_effect lower strip chat_action rnd chat_id user_id
    first_name args w :
  get chat_id (games w) = None ->
  join chat_id user_id first_name w
  = (Ret tt, World (games w) (outbox w ++ [ReplyText SendNewgameFirst]))
  /\ begin rnd chat_id w
     = (Ret tt, World (games w) (outbox w ++ [ReplyText SendNewgameFirst]))
  /\ night chat_id w = (Ret tt, World (games w) (outbox w ++ [ReplyText NoGame]))
  /\ day chat_id w = (Ret tt, World (games w) (outbox w ++ [ReplyText NoGame]))
  /\ vote lower strip chat_action chat_id user_id args w
     = (Ret tt, World (games w) (outbox w ++ [ReplyText NoGame]))
  /\ players_command chat_id w = (Ret NoGameYet, w)
  /\ status chat_id w = (Ret NoGameToShow, w).
Proof.
  intros Hg.
  unfold join, begin, night, day, vote, players_command, status.
  rewrite !(bind_Ret _ _ w (games w) w) by done.
  rewrite (mem_false _ _ Hg). by repeat split.
Qed.

Lemma no_game_no_effect_witness :
  join 2 7 None lobby_world
  = (Ret tt, World (games lobby_world) (outbox lobby_world ++ [ReplyText SendNewgameFirst]))
  /\ begin draw_zero 2 lobby_world
     = (Ret tt, World (games lobby_world) (outbox lobby_world ++ [ReplyText SendNewgameFirst]))
  /\ night 2 lobby_world
     = (Ret tt, World (games lobby_world) (outbox lobby_world ++ [ReplyText NoGame]))
  /\ day 2 lobby_world
     = (Ret tt, World (games lobby_world) (outbox lobby_world ++ [ReplyText NoGame]))
  /\ vote ascii_lower ascii_strip ptb_reply_chat_action 2 7 ["Ali"] lobby_world
     = (Ret tt, World (games lobby_world) (outbox lobby_world ++ [ReplyText NoGame]))
  /\ players_command 2 lobby_world = (Ret NoGameYet, lobby_world)
  /\ status 2 lobby_world = (Ret NoGameToShow, lobby_world).
Proof.
  apply (no_game_no_effect ascii_lower ascii_strip ptb_reply_chat_action draw_zero
           2 7 None ["Ali"] lobby_world).
  reflexivity.
Defined.

(** ** Joining *)

Lemma display_name_nonempty user_id first_name : display_name user_id first_name <> "".
Proof.
  unfold display_name. destruct first_name as [n|]; [|done].
  case_bool_decide; done.
Qed.

Lemma join_lobby chat_id user_id first_name w g :
  get chat_id (games w) = Some g ->
  started g = false ->
  get user_id (players g) = None ->
  join chat_id user_id first_name w
  = (Ret tt,
     World (set chat_id
              (set_players (players g ++ [(user_id, display_name user_id first_name)]) g)
              (games w))
           (outbox w ++ [ReplyText (Joined first_name)])).
Proof.
  intros Hg Hs Hu. unfold join.
  rewrite (bind_Ret _ _ w (games w) w) by done.
  rewrite (mem_true _ _ _ Hg). simpl.
  rewrite (bind_Ret _ _ _ _ _ (get_game_Some _ _ _ Hg)).
  rewrite Hs, (mem_false _ _ Hu).
  rewrite (bind_Ret _ _ _ _ _ (update_game_Some _ _ _ _ Hg)).
  by rewrite (set_absent _ _ _ Hu).
Qed.

(** X3.  in a lobby, a user who has not joined is put last among the
    players, under the first name, or under [User<id>] when there is
    none; the name is never empty, nothing else of the game changes, and
    [players] then lists the names as before with the new one at the end. *)
Theorem join_appends chat_id user_id first_name w g :
  get chat_id (games w) = Some g ->
  started g = false ->
  get user_id (players g) = None ->
  let w' := (join chat_id user_id first_name w).2 in
  get chat_id (games w')
  = Some (set_players (players g ++ [(user_id, display_name user_id first_name)]) g)
  /\ (forall c, c <> chat_id -> get c (games w') = get c (games w))
  /\ outbox w' = outbox w ++ [ReplyText (Joined first_name)]
  /\ display_name user_id first_name <> ""
  /\ (players_command chat_id w').1
     = Ret (PlayerList (values (players g) ++ [display_name user_id first_name])).
Proof.
  intros Hg Hs Hu. rewrite (join_lobby _ _ _ _ _ Hg Hs Hu). simpl.
  split; [apply get_set_eq|]. split; [intros c Hc; by apply get_set_ne|].
  split; [done|]. split; [apply display_name_nonempty|].
  unfold players_command.
  erewrite bind_Ret by reflexivity. simpl.
  erewrite mem_true by apply get_set_eq. simpl.
  erewrite bind_Ret by (apply get_game_Some; simpl; apply get_set_eq).
  simpl. rewrite bool_decide_eq_false_2 by (by destruct (players g)).
  unfold values. by rewrite fmap_app.
Qed.

Lemma join_appends_witness :
  let w' := (join 1 7 None two_joined_world).2 in
  get 1 (games w')
  = Some (set_players (players two_joined ++ [(7, display_name 7 None)]) two_joined)
  /\ (forall c, c <> 1 -> get c (games w') = get c (games two_joined_world))
  /\ outbox w' = outbox two_joined_world ++ [ReplyText (Joined None)]
  /\ display_name 7 None <> ""
  /\ (players_command 1 w').1
     = Ret (PlayerList (values (players two_joined) ++ [display_name 7 None])).
Proof.
  apply (join_appends 1 7 None two_joined_world two_joined); reflexivity.
Defined.

(** X4.  [join] turns down a user once the game has started, and a user
    who is already a player of the lobby; the world keeps its games. *)
Theorem join_refused chat_id user_id first_name w g :
  get chat_id (games w) = Some g ->
  started g = true \/ is_Some (get user_id (players g)) ->
  join chat_id user_id first_name w
  = (Ret tt,
     World (games w)
           (outbox w ++ [ReplyText (if started g then AlreadyStarted
                                     else AlreadyJoined)])).
Proof.
  intros Hg Hor. unfold join.
  rewrite (bind_Ret _ _ w (games w) w) by done.
  rewrite (mem_true _ _ _ Hg). simpl.
  rewrite (bind_Ret _ _ _ _ _ (get_game_Some _ _ _ Hg)).
  destruct (started g); [done|].
  destruct Hor as [?|[n Hn]]; [done|]. by rewrite (mem_true _ _ _ Hn).
Qed.

Lemma join_refused_witness :
  join 9 7 (Some "Zara") quartet_world
  = (Ret tt,
     World (games quartet_world)
           (outbox quartet_world
            ++ [ReplyText (if started quartet_game then AlreadyStarted
                           else AlreadyJoined)])).
Proof.
  apply (join_refused 9 7 (Some "Zara") quartet_world quartet_game).
  - reflexivity.
  - left. reflexivity.
Defined.

(** X5.  the fallback name [User<id>] is used for a missing and for an
    empty first name alike, and it tells users apart: two users without
    a first name never get the same display name. *)
Theorem display_name_fallback user_id user_id' :
  display_name user_id (Some "") = display_name user_id None
  /\ (display_name user_id None = display_name user_id' None -> user_id = user_id').
Proof.
  unfold display_name. split.
  - by rewrite bool_decide_eq_true_2.
  - assert (Hc : forall a b : string, "User" +:+ a = "User" +:+ b -> a = b)
      by (intros a b; simpl; intros [= H]; exact H).
    intros H%Hc. by apply (inj pretty) in H.
Qed.

Lemma display_name_fallback_witness :
  display_name 7 (Some "") = display_name 7 None
  /\ (display_name 7 None = display_name 7 None -> 7 = 7).
Proof. apply (display_name_fallback 7 7). Defined.

(** ** Starting the game and the night *)

Lemma for_each_collect {A} (l : list A) (f : A -> M unit) (out : A -> list event) :
  (forall a w, f a w = (Ret tt, World (games w) (outbox w ++ out a))) ->
  forall w,
    for_each l f w = (Ret tt, World (games w) (outbox w ++ concat (map out l))).
Proof.
  intros Hf. induction l as [|a l IH]; intros w; simpl.
  - rewrite app_nil_r. by destruct w.
  - rewrite (bind_Ret _ _ _ _ _ (Hf a w)), IH. simpl. by rewrite app_assoc.
Qed.

Lemma elem_of_concat_map {A B} (f : A -> list B) (l : list A) (x : B) :
  x ∈ concat (map f l) <-> exists a, a ∈ l /\ x ∈ f a.
Proof.
  induction l as [|a l IH]; simpl.
  - split; [by intros ?%elem_of_nil | by intros (a & ?%elem_of_nil & _)].
  - rewrite elem_of_app, IH. split.
    + intros [Hx|(a' & Ha' & Hx)]; [exists a; split; [left | done]|].
      exists a'. split; [by right | done].
    + intros (a' & [->|Ha']%elem_of_cons & Hx); [by left|].
      right. by exists a'.
Qed.

Lemma concat_singletons {A B} (f : A -> B) (l : list A) :
  concat (map (fun a => [f a]) l) = map f l.
Proof. induction l as [|a l IH]; simpl; [done | by rewrite IH]. Qed.

(** X6.  [begin] on a game of three players or more, started or not,
    draws the roles anew, makes everybody alive, marks the game started
    and sets the night; players, votes and night actions stay.  Every
    player is sent the role the new mapping gives, in the order of the
    mapping, before the chat is told that the game has begun. *)
Theorem begin_deals rnd chat_id w g :
  get chat_id (games w) = Some g ->
  (3 <= length (players g))%nat ->
  exists r,
    assign_roles rnd (keys (players g)) = Ret r
    /\ begin rnd chat_id w
       = (Ret tt,
          World (set chat_id
                   (Game (players g) r (player_set g) true night_phase
                         (votes g) (night_actions g))
                   (games w))
                (outbox w ++ map role_message r ++ [ReplyText GameBegun])).
Proof.
  intros Hg Hn. unfold begin.
  rewrite (bind_Ret _ _ w (games w) w) by done.
  rewrite (mem_true _ _ _ Hg). simpl.
  rewrite (bind_Ret _ _ _ _ _ (get_game_Some _ _ _ Hg)).
  assert (Hlen : length (keys (players g)) = length (players g))
    by (unfold keys; apply length_fmap).
  rewrite Hlen. destruct (Nat.ltb_spec (length (players g)) 3) as [?|_]; [lia|].
  assert (Hr : exists r, assign_roles rnd (keys (players g)) = Ret r).
  { unfold assign_roles. rewrite Hlen.
    destruct (Nat.ltb_spec (length (players g)) 3) as [?|_]; [lia|]. by eexists. }
  destruct Hr as [r Hr]. rewrite Hr. exists r. split; [done|].
  unfold try_catch.
  rewrite (bind_Ret _ _ w r w) by done.
  rewrite (bind_Ret _ _ _ _ _ (update_game_Some _ _ _ _ Hg)).
  erewrite bind_Ret by (apply update_game_Some; simpl; apply get_set_eq).
  erewrite bind_Ret by (apply update_game_Some; simpl; apply get_set_eq).
  erewrite bind_Ret by (apply update_game_Some; simpl; apply get_set_eq).
  simpl. rewrite !set_set. unfold set_phase, set_started, set_alive, set_roles.
  simpl. fold (player_set g).
  erewrite bind_Ret
    by (apply (for_each_collect r _ (fun ur => [role_message ur])); by intros [uid ro] w0).
  unfold emit. simpl. by rewrite concat_singletons, <-app_assoc.
Qed.

Lemma begin_deals_witness :
  exists r,
    assign_roles draw_zero (keys (players quartet_game)) = Ret r
    /\ begin draw_zero 9 quartet_world
       = (Ret tt,
          World (set 9
                   (Game (players quartet_game) r (player_set quartet_game) true
                         night_phase (votes quartet_game) (night_actions quartet_game))
                   (games quartet_world))
                (outbox quartet_world ++ map role_message r ++ [ReplyText GameBegun])).
Proof.
  apply (begin_deals draw_zero 9 quartet_world quartet_game).
  - reflexivity.
  - simpl. lia.
Defined.

(** X7.  [night] is turned down, and changes nothing, before [begin] and
    whenever the phase is not the day. *)
Theorem night_refused chat_id w g :
  get chat_id (games w) = Some g ->
  started g = false \/ phase g <> day_phase ->
  night chat_id w
  = (Ret tt,
     World (games w)
           (outbox w ++ [ReplyText (if started g then NotNightNow
                                     else SendBeginFirst)])).
Proof.
  intros Hg Hor. unfold night.
  rewrite (bind_Ret _ _ w (games w) w) by done.
  rewrite (mem_true _ _ _ Hg). simpl.
  rewrite (bind_Ret _ _ _ _ _ (get_game_Some _ _ _ Hg)).
  destruct (started g); [|done]. simpl.
  destruct Hor as [?|Hp]; [done|]. by rewrite (bool_decide_eq_true_2 _ Hp).
Qed.

Lemma night_refused_witness :
  night 9 quartet_world
  = (Ret tt,
     World (games quartet_world)
           (outbox quartet_world
            ++ [ReplyText (if started quartet_game then NotNightNow
                           else SendBeginFirst)])).
Proof.
  apply (night_refused 9 quartet_world quartet_game).
  - reflexivity.
  - right. discriminate.
Defined.

(** X8.  [begin] leaves the game in its night phase, and [night] asks for
    the day phase: the [night] that follows a [begin] is turned down and
    sends no menu. *)
Theorem night_after_begin_refused rnd chat_id w g :
  get chat_id (games w) = Some g ->
  (3 <= length (players g))%nat ->
  night chat_id (begin rnd chat_id w).2
  = (Ret tt,
     World (games (begin rnd chat_id w).2)
           (outbox (begin rnd chat_id w).2 ++ [ReplyText NotNightNow])).
Proof.
  intros Hg Hn.
  destruct (begin_starts rnd chat_id w g Hg Hn) as (r & out & _ & ->). simpl.
  unfold night.
  erewrite bind_Ret by reflexivity. simpl.
  erewrite mem_true by apply get_set_eq. simpl.
  erewrite bind_Ret by (apply get_game_Some; simpl; apply get_set_eq).
  reflexivity.
Qed.

Lemma night_after_begin_refused_witness :
  night 9 (begin draw_zero 9 quartet_world).2
  = (Ret tt,
     World (games (begin draw_zero 9 quartet_world).2)
           (outbox (begin draw_zero 9 quartet_world).2 ++ [ReplyText NotNightNow])).
Proof.
  apply (night_after_begin_refused draw_zero 9 quartet_world quartet_game).
  - reflexivity.
  - simpl. lia.
Defined.

Lemma elem_of_buttons_for g uid exclude_self name t :
  (name, t) ∈ buttons_for g uid exclude_self
  <-> (t, name) ∈ players g /\ t ∈ alive g /\ (exclude_self = true -> t <> uid).
Proof.
  unfold buttons_for. rewrite list_elem_of_omap. split.
  - intros ([t' n'] & Hin & Hsome).
    destruct (bool_decide (t' ∈ alive g)) eqn:Ha; simpl in Hsome; [|done].
    apply bool_decide_eq_true in Ha.
    destruct exclude_self; simpl in Hsome.
    + destruct (bool_decide (t' <> uid)) eqn:Hne; [|done].
      apply bool_decide_eq_true in Hne. injection Hsome as -> ->. done.
    + injection Hsome as -> ->. done.
  - intros (Hin & Ha & Hne). exists (t, name). split; [done|].
    rewrite (bool_decide_eq_true_2 _ Ha). simpl.
    destruct exclude_self; simpl; [|done].
    by rewrite bool_decide_eq_true_2 by (by apply Hne).
Qed.

Lemma menu_for_legal g ur e :
  ur ∈ roles g -> e ∈ menu_for g ur -> legal_menu g e.
Proof.
  destruct ur as [uid ro]. unfold menu_for. simpl. intros Hur.
  case_bool_decide as Ha; [by intros ?%elem_of_nil|].
  assert (Halive : uid ∈ alive g) by (by destruct (decide (uid ∈ alive g))).
  destruct ro.
  - case_bool_decide; [|by intros ?%elem_of_nil].
    intros ->%list_elem_of_singleton. exists uid, mafia, (buttons_for g uid true).
    repeat split; try done; apply elem_of_buttons_for in H0 as (? & ? & ?); auto.
  - intros ->%list_elem_of_singleton. exists uid, doctor, (buttons_for g uid false).
    repeat split; try done; apply elem_of_buttons_for in H as (? & ? & ?); auto.
  - intros ->%list_elem_of_singleton. exists uid, sheriff, (buttons_for g uid true).
    repeat split; try done; apply elem_of_buttons_for in H as (? & ? & ?); auto.
  - by intros ?%elem_of_nil.
Qed.

(** X9.  [night] on a started game in its day phase sets the night and
    empties the night actions, and nothing else of the game; it sends
    menus and then tells the chat.  Every menu goes to a living holder
    of an active role and offers living players only, never the
    recipient unless it is the Doktor's menu; a living Doktor is always
    offered the Doktor's own name. *)
Theorem night_opens chat_id w g :
  get chat_id (games w) = Some g ->
  started g = true ->
  phase g = day_phase ->
  exists menus,
    night chat_id w
    = (Ret tt,
       World (set chat_id (set_night_actions [] (set_phase night_phase g)) (games w))
             (outbox w ++ menus ++ [ReplyText NightStarted]))
    /\ (forall e, e ∈ menus -> legal_menu g e)
    /\ (forall uid name,
          (uid, Doktor) ∈ roles g -> uid ∈ alive g -> (uid, name) ∈ players g ->
          exists buttons, Menu uid doctor buttons ∈ menus /\ (name, uid) ∈ buttons).
Proof.
  intros Hg Hs Hp. exists (concat (map (menu_for g) (roles g))). split; [|split].
  - unfold night.
    rewrite (bind_Ret _ _ w (games w) w) by done.
    rewrite (mem_true _ _ _ Hg). simpl.
    rewrite (bind_Ret _ _ _ _ _ (get_game_Some _ _ _ Hg)).
    rewrite Hs, Hp. simpl.
    rewrite (bind_Ret _ _ _ _ _ (update_game_Some _ _ _ _ Hg)).
    erewrite bind_Ret by (apply update_game_Some; simpl; apply get_set_eq).
    simpl. rewrite set_set.
    erewrite bind_Ret.
    2:{ apply (for_each_collect (roles g) _ (menu_for g)).
        intros [uid ro] w0. unfold menu_for. simpl.
        case_bool_decide.
        - unfold ret. rewrite app_nil_r. by destruct w0.
        - destruct ro; try done.
          + case_bool_decide; [done|]. unfold ret. rewrite app_nil_r. by destruct w0.
          + unfold ret. rewrite app_nil_r. by destruct w0. }
    unfold emit. simpl. by rewrite <-app_assoc.
  - intros e (ur & Hur & He)%elem_of_concat_map.
    by apply (menu_for_legal g ur).
  - intros uid name Hrole Halive Hname.
    exists (buttons_for g uid false). split.
    + apply elem_of_concat_map. exists (uid, Doktor). split; [done|].
      unfold menu_for. simpl.
      rewrite bool_decide_eq_false_2 by (intros Hn; by apply Hn). left.
    + by apply elem_of_buttons_for.
Qed.

Lemma night_opens_witness :
  exists menus,
    night 9 quartet_day_world
    = (Ret tt,
       World (set 9 (set_night_actions [] (set_phase night_phase quartet_morning))
                  (games quartet_day_world))
             (outbox quartet_day_world ++ menus ++ [ReplyText NightStarted]))
    /\ (forall e, e ∈ menus -> legal_menu quartet_morning e)
    /\ (forall uid name,
          (uid, Doktor) ∈ roles quartet_morning -> uid ∈ alive quartet_morning ->
          (uid, name) ∈ players quartet_morning ->
          exists buttons, Menu uid doctor buttons ∈ menus /\ (name, uid) ∈ buttons).
Proof.
  apply (night_opens 9 quartet_day_world quartet_morning); reflexivity.
Defined.

(** ** Votes that are turned down, and the count *)

Lemma find_target_none lower target_name (alive : gset Z) (items : list (Z * string)) :
  (forall u n, (u, n) ∈ items -> lower n = lower target_name -> u ∉ alive) ->
  find_target lower target_name alive items = None.
Proof.
  induction items as [|[u n] items IH]; intros Hall; simpl; [done|].
  rewrite IH by (intros u' n' Hin; apply Hall; by right).
  destruct (decide (lower n = lower target_name)) as [Heq|Hne].
  - rewrite (bool_decide_eq_false_2 (u ∈ alive)) by (apply (Hall u n); [left | done]).
    by rewrite andb_false_r.
  - by rewrite (bool_decide_eq_false_2 _ Hne).
Qed.

(** X10.  [vote] turns a vote down, with one complaint and no change to any
    game, when the phase is not the day, when the voter is not alive,
    when no name is given, and when no living player answers to the
    name; the first of these that applies makes the complaint. *)
Theorem vote_refused lower strip chat_action chat_id user_id args w g :
  get chat_id (games w) = Some g ->
  phase g <> day_phase
  \/ user_id ∉ alive g
  \/ args = []
  \/ (forall u n, (u, n) ∈ players g ->
        lower n = lower (strip (String.concat " " args)) -> u ∉ alive g) ->
  vote lower strip chat_action chat_id user_id args w
  = (Ret tt,
     World (games w) (outbox w ++ [ReplyText (vote_complaint g user_id args)])).
Proof.
  intros Hg Hor. unfold vote, vote_complaint.
  rewrite (bind_Ret _ _ w (games w) w) by done.
  rewrite (mem_true _ _ _ Hg). simpl.
  rewrite (bind_Ret _ _ _ _ _ (get_game_Some _ _ _ Hg)).
  destruct (decide (phase g <> day_phase)) as [Hp|Hp];
    [by rewrite (bool_decide_eq_true_2 _ Hp)|].
  rewrite (bool_decide_eq_false_2 _ Hp).
  destruct (decide (user_id ∉ alive g)) as [Hu|Hu];
    [by rewrite (bool_decide_eq_true_2 _ Hu)|].
  rewrite (bool_decide_eq_false_2 _ Hu).
  destruct (decide (args = [])) as [Ha|Ha];
    [by rewrite (bool_decide_eq_true_2 _ Ha)|].
  rewrite (bool_decide_eq_false_2 _ Ha).
  destruct Hor as [?|[?|[?|Hnone]]]; try done.
  by rewrite (find_target_none _ _ _ _ Hnone).
Qed.

Lemma vote_refused_witness :
  vote ascii_lower ascii_strip ptb_reply_chat_action 9 4 ["Ali"] quartet_day_world
  = (Ret tt,
     World (games quartet_day_world)
           (outbox quartet_day_world
            ++ [ReplyText (vote_complaint quartet_morning 4 ["Ali"])])).
Proof.
  apply (vote_refused ascii_lower ascii_strip ptb_reply_chat_action 9 4 ["Ali"]
           quartet_day_world quartet_morning).
  - reflexivity.
  - right. left. vm_compute. discriminate.
Defined.

Lemma sum_values_count_step (acc : list (Z * nat)) (v : Z) :
  sum_list (values (set v (default 0%nat (get v acc) + 1)%nat acc))
  = (sum_list (values acc) + 1)%nat.
Proof.
  unfold values. induction acc as [|[k n] acc IH]; csimpl; [done|].
  destruct (decide (v = k)) as [->|Hv]; csimpl; [lia|].
  rewrite IH. lia.
Qed.

(** X11.  the count of the votes holds, for every player, the number of
    recorded votes for that player, and no entry for a player without
    votes; each player is counted once, and the counts add up to the
    number of votes. *)
Theorem count_votes_counts (votes : list (Z * Z)) :
  (forall t, get t (count_votes votes)
             = if decide (votes_for t votes = 0%nat) then None
               else Some (votes_for t votes))
  /\ NoDup (keys (count_votes votes))
  /\ sum_list (values (count_votes votes)) = length votes.
Proof.
  split; [intros t; apply count_votes_get|]. split; [apply count_votes_NoDup|].
  unfold count_votes.
  assert (H : forall l (acc : list (Z * nat)),
            sum_list (values (foldl (fun vote_count v =>
                       set v (default 0%nat (get v vote_count) + 1)%nat vote_count) acc l))
            = (sum_list (values acc) + length l)%nat).
  { induction l as [|v l IH]; intros acc; simpl; [lia|].
    rewrite IH, sum_values_count_step. lia. }
  rewrite H. simpl. unfold values. by rewrite length_fmap.
Qed.

Lemma tally_votes_rule_witness :
  (forall t, leads (votes quartet_three_votes) t ->
     (forall t', leads (votes quartet_three_votes) t' -> t' = t) ->
     exists name,
       get t (players quartet_three_votes) = Some name
       /\ tally_votes (Ret tt) 9 quartet_three_votes_world
          = night_is_due 9
              (World (set 9
                        (Game (players quartet_three_votes) (roles quartet_three_votes)
                              (alive quartet_three_votes ∖ {[t]})
                              (started quartet_three_votes) (phase quartet_three_votes)
                              (votes quartet_three_votes)
                              (night_actions quartet_three_votes))
                        (games quartet_three_votes_world))
                     (outbox quartet_three_votes_world ++ [ReplyText (Eliminated name)])))
  /\ (forall t t', leads (votes quartet_three_votes) t ->
        leads (votes quartet_three_votes) t' -> t <> t' ->
        tally_votes (Ret tt) 9 quartet_three_votes_world
        = night_is_due 9
            (World (games quartet_three_votes_world)
                   (outbox quartet_three_votes_world ++ [ReplyText TieNobodyEliminated]))).
Proof.
  apply (tally_votes_rule (Ret tt) 9 quartet_three_votes_world quartet_three_votes).
  - reflexivity.
  - reflexivity.
  - discriminate.
  - intros t [Hpos _]. unfold votes_for in Hpos. simpl in Hpos.
    rewrite !filter_cons in Hpos. simpl in Hpos.
    destruct (decide (1 = t)) as [<-|Hne]; [by eexists|].
    simpl in Hpos. lia.
Defined.

(** ** Night actions *)

Lemma find_chat_set user_id (gs : list (Z * game)) cid g g' :
  get cid gs = Some g ->
  players g' = players g -> alive g' = alive g ->
  find_chat user_id (set cid g' gs) = find_chat user_id gs.
Proof.
  intros Hg Hp Ha. induction gs as [|[c g0] gs IH]; simpl in *; [done|].
  destruct (decide (cid = c)) as [->|Hc]; simpl.
  - injection Hg as ->. by rewrite Hp, Ha.
  - by rewrite IH.
Qed.

Lemma button_handler_writes user_id s t w cid g :
  find_chat user_id (games w) = Some cid -> cid <> 0 ->
  get cid (games w) = Some g ->
  exists r out,
    button_handler user_id (Chosen s t) w
    = (r, World (set cid (set_night_actions (set s t (night_actions g)) g) (games w))
                out).
Proof.
  intros Hfind Hcid Hg. unfold button_handler.
  rewrite (bind_Ret _ _ w (games w) w) by done.
  rewrite Hfind, (truthy_nonzero cid Hcid). simpl.
  rewrite (bind_Ret _ _ _ _ _ (get_game_Some _ _ _ Hg)).
  rewrite (bind_Ret _ _ _ _ _ (update_game_Some _ _ _ _ Hg)).
  unfold bind, lift, emit. destruct (getitem t (players g)); by eexists _, _.
Qed.

(** X12.  of two choices a living player makes for one slot, the later one
    stands: the games are as if only the second had been made, whatever
    the handler answered to either; the other slots keep their targets. *)
Theorem button_last_write_wins user_id s t1 t2 w cid g :
  find_chat user_id (games w) = Some cid -> cid <> 0 ->
  get cid (games w) = Some g ->
  let w1 := (button_handler user_id (Chosen s t1) w).2 in
  let w2 := (button_handler user_id (Chosen s t2) w1).2 in
  games w2 = set cid (set_night_actions (set s t2 (night_actions g)) g) (games w)
  /\ games w2 = games (button_handler user_id (Chosen s t2) w).2
  /\ forall s', s' <> s ->
       get s' (set s t2 (night_actions g)) = get s' (night_actions g).
Proof.
  intros Hfind Hcid Hg.
  destruct (button_handler_writes user_id s t1 w cid g Hfind Hcid Hg) as (r1 & o1 & H1).
  destruct (button_handler_writes user_id s t2 w cid g Hfind Hcid Hg) as (r & o & H).
  rewrite H1, H. simpl.
  destruct (button_handler_writes user_id s t2
              (World (set cid (set_night_actions (set s t1 (night_actions g)) g) (games w)) o1)
              cid (set_night_actions (set s t1 (night_actions g)) g))
    as (r2 & o2 & H2).
  - simpl. by rewrite (find_chat_set _ _ _ g).
  - done.
  - simpl. apply get_set_eq.
  - rewrite H2. simpl. rewrite !set_set. split; [done|]. split; [done|].
    intros s' Hs. by apply get_set_ne.
Qed.

Lemma button_last_write_wins_witness :
  let w1 := (button_handler 1 (Chosen mafia 2) quartet_second_night_world).2 in
  let w2 := (button_handler 1 (Chosen mafia 3) w1).2 in
  games w2
  = set 9 (set_night_actions (set mafia 3 (night_actions quartet_second_night))
                             quartet_second_night)
        (games quartet_second_night_world)
  /\ games w2 = games (button_handler 1 (Chosen mafia 3) quartet_second_night_world).2
  /\ forall s', s' <> mafia ->
       get s' (set mafia 3 (night_actions quartet_second_night))
       = get s' (night_actions quartet_second_night).
Proof.
  apply (button_last_write_wins 1 mafia 2 3 quartet_second_night_world 9
           quartet_second_night).
  - reflexivity.
  - discriminate.
  - reflexivity.
Defined.

(** ** The new day *)

Lemma bind_Ret_inv {A B} (m : M A) (k : A -> M B) w b w' :
  bind m k w = (Ret b, w') ->
  exists a w1, m w = (Ret a, w1) /\ k a w1 = (Ret b, w').
Proof.
  unfold bind. destruct (m w) as [[a|e] w1]; [|done]. intros H. by exists a, w1.
Qed.

Lemma update_game_inv chat_id f w w' :
  update_game chat_id f w = (Ret tt, w') ->
  exists g, get chat_id (games w) = Some g
            /\ w' = World (set chat_id (f g) (games w)) (outbox w).
Proof.
  unfold update_game. destruct (get chat_id (games w)) as [g|]; [|done].
  intros [= <-]. by exists g.
Qed.

Lemma day_breaks_inv chat_id w w' g' :
  day_breaks chat_id w = (Ret tt, w') ->
  get chat_id (games w') = Some g' ->
  exists g, get chat_id (games w) = Some g
            /\ g' = set_votes [] (set_phase day_phase g).
Proof.
  unfold day_breaks.
  intros (ended & w1 & Hc & Hk)%bind_Ret_inv Hg'.
  apply check_game_end_frame in Hc. destruct ended; simpl in Hk.
  - injection Hk as <-. destruct Hc as (_ & Hdel & _).
    rewrite Hdel, get_del_eq in Hg'. done.
  - subst w1.
    apply bind_Ret_inv in Hk as ([] & w2 & (g & Hg & ->)%update_game_inv & Hk).
    apply bind_Ret_inv in Hk as ([] & w3 & (g2 & Hg2 & ->)%update_game_inv & Hk).
    simpl in Hg2. rewrite get_set_eq in Hg2. injection Hg2 as <-.
    injection Hk as <-. simpl in Hg'. rewrite set_set, get_set_eq in Hg'.
    injection Hg' as <-. by exists g.
Qed.

(** X13.  whenever [end_night_phase] returns and the game is still in
    [games], the game is in its day phase and holds no vote: every day
    starts from an empty ballot. *)
Theorem day_starts_without_votes chat_id w w' g' :
  end_night_phase chat_id w = (Ret tt, w') ->
  get chat_id (games w') = Some g' ->
  phase g' = day_phase /\ votes g' = [].
Proof.
  unfold end_night_phase, coroutine, try_catch. intros Hrun Hg'.
  match type of Hrun with
  | (match ?body w with _ => _ end) = _ => destruct (body w) as [[[]|e] w1] eqn:Hbody
  end.
  2:{ by destruct e. }
  injection Hrun as <-. cbv zeta in Hbody.
  apply bind_Ret_inv in Hbody as (g & w2 & _ & Hbody).
  apply bind_Ret_inv in Hbody as (vn & w3 & _ & Hbody).
  apply bind_Ret_inv in Hbody as (ck & w4 & _ & Hbody).
  apply bind_Ret_inv in Hbody as (g1 & w5 & _ & Hbody).
  apply bind_Ret_inv in Hbody as (names & w6 & _ & Hbody).
  apply bind_Ret_inv in Hbody as ([] & w7 & _ & Hbody).
  destruct (day_breaks_inv _ _ _ _ Hbody Hg') as (g0 & _ & ->). done.
Qed.

Lemma day_starts_without_votes_witness :
  phase quartet_morning = day_phase /\ votes quartet_morning = [].
Proof.
  apply (day_starts_without_votes 9 quartet_world
           (World [(9, quartet_morning)]
              [SendMessage 9 (NightReport (Some "Gani") (Some ("Ali", Mafia))
                                          ["Sami"; "Vali"; "Ali"]);
               SendMessage 9 DayStarted])
           quartet_morning).
  - vm_compute. reflexivity.
  - reflexivity.
Defined.

(** ** What holds of every game the bot can hold *)

Lemma wf_keep g g' :
  players g' = players g -> roles g' = roles g -> started g' = started g ->
  alive g' ⊆ alive g ->
  wf_game g -> wf_game g'.
Proof.
  intros Hp Hr Hs Ha [W1 W2 W3 W4].
  assert (Hps : player_set g' = player_set g) by (unfold player_set; by rewrite Hp).
  split.
  - by rewrite Hp.
  - rewrite Hps. set_solver.
  - rewrite Hs, Hr. intros Hl. destruct (W3 Hl) as [-> He]. split; [done|].
    apply leibniz_equiv. set_solver.
  - rewrite Hs, Hr, Hp. apply W4.
Qed.

Global Instance keeps_wf_preorder : PreOrder keeps_wf.
Proof.
  split.
  - by intros g Hg.
  - intros g1 g2 g3 H12 H23 Hg. by apply H23, H12.
Qed.

(** Steps through a handler that writes neither players nor roles. *)
Ltac wf_step :=
  first
    [ match goal with |- PreOrder _ => apply _ end
    | apply preserves_ret | apply preserves_raise | apply preserves_lift
    | apply preserves_get_games | apply preserves_get_game
    | apply related_emit | apply related_del_game
    | apply related_update_game; [apply _|];
      intros ? ?; eapply wf_keep; [..|eassumption]; simpl; first [done | set_solver]
    | apply preserves_coroutine | apply preserves_try_catch
    | apply preserves_for_each
    | apply preserves_bind
    | match goal with |- preserves _ (if ?b then _ else _) => destruct b end
    | match goal with |- preserves _ (match ?x with _ => _ end) => destruct x end
    | intros ? ].

Lemma wf_check_game_end chat_id :
  preserves (games_related keeps_wf) (check_game_end chat_id).
Proof. unfold check_game_end. repeat wf_step. Qed.

Lemma wf_end_night_phase chat_id :
  preserves (games_related keeps_wf) (end_night_phase chat_id).
Proof.
  unfold end_night_phase, day_breaks, discard. cbv zeta.
  repeat first [ apply wf_check_game_end | wf_step ].
Qed.

Lemma wf_day chat_id : preserves (games_related keeps_wf) (day chat_id).
Proof. unfold day. repeat first [ apply wf_end_night_phase | wf_step ]. Qed.

Lemma wf_night chat_id : preserves (games_related keeps_wf) (night chat_id).
Proof. unfold night. repeat wf_step. Qed.

Lemma wf_vote lower strip chat_action chat_id user_id args :
  preserves (games_related keeps_wf)
            (vote lower strip chat_action chat_id user_id args).
Proof.
  unfold vote, tally_votes, night_is_due, discard. cbv zeta.
  repeat first [ apply wf_check_game_end | wf_step ].
Qed.

Lemma wf_button_handler user_id data :
  preserves (games_related keeps_wf) (button_handler user_id data).
Proof. unfold button_handler. cbv zeta. repeat wf_step. Qed.

Lemma wf_world_related w w' :
  games_related keeps_wf w w' -> wf_world w -> wf_world w'.
Proof.
  intros Hrel Hw c g' Hg'. destruct (Hrel c g' Hg') as (g & Hg & Hk).
  apply Hk. by apply (Hw c).
Qed.

Lemma wf_world_set chat_id g w out :
  wf_world w -> wf_game g -> wf_world (World (set chat_id g (games w)) out).
Proof.
  intros Hw Hg c g'. simpl. destruct (decide (chat_id = c)) as [<-|Hc].
  - rewrite get_set_eq. by intros [= <-].
  - rewrite get_set_ne by done. apply Hw.
Qed.

Lemma wf_world_outbox w out : wf_world w -> wf_world (World (games w) out).
Proof. intros Hw c g. apply Hw. Qed.

Lemma wf_new_game : wf_game new_game.
Proof.
  split; simpl; first [apply NoDup_nil_2 | done | by intros _; split].
Qed.

Lemma wf_newgame chat_id w r w' :
  newgame chat_id w = (r, w') -> wf_world w -> wf_world w'.
Proof.
  intros [= _ <-] Hw. apply (wf_world_set chat_id new_game w); [done|].
  apply wf_new_game.
Qed.

Lemma wf_join chat_id user_id first_name w r w' :
  join chat_id user_id first_name w = (r, w') -> wf_world w -> wf_world w'.
Proof.
  unfold join. rewrite (bind_Ret _ _ w (games w) w) by done.
  destruct (get chat_id (games w)) as [g|] eqn:Hg.
  - rewrite (mem_true _ _ _ Hg). simpl.
    rewrite (bind_Ret _ _ _ _ _ (get_game_Some _ _ _ Hg)).
    destruct (started g) eqn:Hs.
    { intros [= _ <-] Hw. by apply wf_world_outbox. }
    destruct (get user_id (players g)) as [n|] eqn:Hu.
    { rewrite (mem_true _ _ _ Hu). intros [= _ <-] Hw. by apply wf_world_outbox. }
    rewrite (mem_false _ _ Hu).
    rewrite (bind_Ret _ _ _ _ _ (update_game_Some _ _ _ _ Hg)).
    intros [= _ <-] Hw. apply wf_world_set; [done|].
    destruct (Hw chat_id g Hg) as [W1 W2 W3 W4]. destruct (W3 Hs) as [Hr Ha].
    split; simpl.
    + by apply NoDup_keys_set.
    + rewrite Ha. set_solver.
    + done.
    + by rewrite Hs.
  - rewrite (mem_false _ _ Hg). intros [= _ <-] Hw. by apply wf_world_outbox.
Qed.

Lemma wf_begin rnd chat_id w r w' :
  begin rnd chat_id w = (r, w') -> wf_world w -> wf_world w'.
Proof.
  intros Hb Hw. destruct (get chat_id (games w)) as [g|] eqn:Hg.
  - destruct (decide (3 <= length (players g))%nat) as [Hn|Hn].
    + destruct (begin_starts rnd chat_id w g Hg Hn) as (ro & out & Hro & Hb').
      rewrite Hb' in Hb. injection Hb as _ <-.
      apply wf_world_set; [done|].
      destruct (Hw chat_id g Hg) as [W1 _ _ _].
      destruct (assign_roles_counts rnd (keys (players g)) W1) as (d & Hd & Hk & Hc).
      { unfold keys. by rewrite length_fmap. }
      rewrite Hro in Hd. injection Hd as <-.
      split; simpl; try done.
      intros _. by rewrite Hk, !Hc.
    + rewrite (too_few_players_begin rnd chat_id w g Hg) in Hb by lia.
      injection Hb as _ <-. by apply wf_world_outbox.
  - revert Hb. unfold begin. rewrite (bind_Ret _ _ w (games w) w) by done.
    rewrite (mem_false _ _ Hg). intros [= _ <-]. by apply wf_world_outbox.
Qed.

Lemma wf_handle lower strip chat_action c w r w' :
  handle lower strip chat_action c w = (r, w') -> wf_world w -> wf_world w'.
Proof.
  destruct c; simpl; intros Hh Hw.
  - by eapply wf_newgame.
  - by eapply wf_join.
  - by eapply wf_begin.
  - eapply wf_world_related; [|done]. by eapply wf_night.
  - eapply wf_world_related; [|done]. by eapply wf_day.
  - eapply wf_world_related; [|done]. by eapply wf_vote.
  - eapply wf_world_related; [|done]. by eapply wf_button_handler.
Qed.

Lemma reachable_wf lower strip chat_action w :
  reachable lower strip chat_action w -> wf_world w.
Proof.
  induction 1 as [|w c r w' _ IH Hh].
  - intros c g. done.
  - by eapply wf_handle.
Qed.

(** The same of every started game the bot can hold. *)
Lemma reachable_night_ready lower strip chat_action w c g :
  reachable lower strip chat_action w ->
  get c (games w) = Some g ->
  started g = true ->
  (forall s t, get s (night_actions g) = Some t ->
     t <> 0 /\ is_Some (get t (players g))) ->
  night_ready g.
Proof.
  intros Hw Hg. apply started_night_ready.
  exact (reachable_wf _ _ _ _ Hw c g Hg).
Qed.

Lemma opening_reachable :
  reachable ascii_lower ascii_strip ptb_reply_chat_action opening_world.
Proof. apply run_script_reachable, reachable_start. Qed.

(** X14.  every game the bot can hold, after any updates handled in any
    order from an empty [games], has distinct player ids and only
    players alive; before [begin] it has no roles and nobody alive;
    after [begin] its roles are those of its players, with exactly one
    Mafia, one Doktor and one Komissar, and it has three players or
    more. *)
Theorem reachable_games_well_formed lower strip chat_action w c g :
  reachable lower strip chat_action w ->
  get c (games w) = Some g ->
  NoDup (keys (players g))
  /\ alive g ⊆ player_set g
  /\ (started g = false -> roles g = [] /\ alive g = ∅)
  /\ (started g = true ->
      keys (roles g) = keys (players g)
      /\ count_role Mafia (roles g) = 1%nat
      /\ count_role Doktor (roles g) = 1%nat
      /\ count_role Komissar (roles g) = 1%nat
      /\ (3 <= length (players g))%nat).
Proof.
  intros Hreach Hg.
  by destruct (reachable_wf _ _ _ _ Hreach c g Hg).
Qed.

Lemma reachable_games_well_formed_witness :
  NoDup (keys (players opening_game))
  /\ alive opening_game ⊆ player_set opening_game
  /\ (started opening_game = false -> roles opening_game = [] /\ alive opening_game = ∅)
  /\ (started opening_game = true ->
      keys (roles opening_game) = keys (players opening_game)
      /\ count_role Mafia (roles opening_game) = 1%nat
      /\ count_role Doktor (roles opening_game) = 1%nat
      /\ count_role Komissar (roles opening_game) = 1%nat
      /\ (3 <= length (players opening_game))%nat).
Proof.
  apply (reachable_games_well_formed ascii_lower ascii_strip ptb_reply_chat_action
           opening_world 9 opening_game).
  - exact opening_reachable.
  - vm_compute. reflexivity.
Defined.

(** The opening, run: the four are alive in a day phase, the nameless
    fourth under the name [User4]. *)
Example opening_game_state :
  players opening_game = [(1, "Ali"); (2, "Vali"); (3, "Sami"); (4, "User4")]
  /\ elements (alive opening_game) = [3; 4; 2; 1]
  /\ started opening_game = true
  /\ phase opening_game = day_phase
  /\ votes opening_game = [].
Proof. repeat split; vm_compute; reflexivity. Qed.

(** ** The win check in the games the bot can hold *)

Lemma check_game_end_cases chat_id w g :
  get chat_id (games w) = Some g ->
  roles_cover_alive g ->
  check_game_end chat_id w
  = if decide (alive g = ∅) then no_winner w else win_rule chat_id w g.
Proof.
  intros Hg Hcov.
  destruct (check_game_end chat_id w) as [r w'] eqn:Hc.
  pose proof (check_game_end_frame _ _ _ _ Hc) as Hframe.
  revert Hc. unfold check_game_end, bind. rewrite (get_game_Some _ _ _ Hg).
  destruct (decide (alive g = ∅)) as [He|Hne].
  { rewrite He, elements_empty. by intros [= <- <-]. }
  rewrite bool_decide_eq_false_2
    by (intros He; apply Hne; by apply elements_empty_inv, leibniz_equiv in He).
  rewrite !filter_res_lookup by (intros p Hp; apply Hcov; by apply elem_of_elements).
  unfold lift. cbv beta iota.
  unfold win_rule, killers, townsfolk. rewrite !size_set_filter.
  rewrite (list_filter_iff
             (fun p => (fun r => bool_decide (r = Mafia)) <$> get p (roles g) = Some true)
             (fun p => get p (roles g) = Some Mafia)).
  2:{ intros p. destruct (get p (roles g)) as [ro|]; simpl; [|done]. split.
      - intros [= Hb%bool_decide_eq_true]. by subst.
      - by intros [= ->]. }
  rewrite (filter_ext_elem
             (fun p => (fun r => bool_decide (r <> Mafia)) <$> get p (roles g) = Some true)
             (fun p => get p (roles g) <> Some Mafia)).
  2:{ intros p Hin%elem_of_elements. destruct (Hcov p Hin) as [ro Hro].
      rewrite Hro. simpl. split.
      - intros [= Hb%bool_decide_eq_true]. congruence.
      - intros Hp. f_equal. apply bool_decide_eq_true. congruence. }
  repeat case_bool_decide; repeat case_decide; try lia;
    unfold emit, del_game, ret, town_wins, mafia_wins, no_winner; simpl;
    rewrite ?Hg; by intros [= <- <-].
Qed.

Lemma count_role_keys (r : role) (d : list (Z * role)) :
  NoDup (keys d) ->
  length (filter (fun p => get p d = Some r) (keys d)) = count_role r d.
Proof.
  unfold count_role, keys, values.
  induction d as [|[k v] d IH]; [done|].
  rewrite !fmap_cons. cbn [fst snd]. intros [Hk Hd]%NoDup_cons.
  assert (Htail : filter (fun p => get p ((k, v) :: d) = Some r) d.*1
                  = filter (fun p => get p d = Some r) d.*1).
  { apply filter_ext_elem. intros p Hp. simpl.
    rewrite decide_False; [done|]. by intros ->. }
  rewrite (filter_cons (fun p => get p ((k, v) :: d) = Some r)), Htail.
  rewrite (filter_cons (fun x => x = r)).
  destruct (decide (v = r)) as [->|Hv].
  - rewrite decide_True by (simpl; by rewrite decide_True). simpl. by rewrite IH.
  - rewrite decide_False by (simpl; rewrite decide_True by done; congruence).
    by apply IH.
Qed.

Lemma size_holders_all (r : role) (d : list (Z * role)) :
  NoDup (keys d) ->
  size (filter (fun p => get p d = Some r) (list_to_set (keys d) : gset Z))
  = count_role r d.
Proof.
  intros Hnd. rewrite size_set_filter, <-count_role_keys by done.
  apply Permutation_length. by rewrite elements_list_to_set.
Qed.

Lemma size_filter_complement (P : Z -> Prop) `{!forall x, Decision (P x)} (X : gset Z) :
  (size (filter P X) + size (filter (fun x => ~ P x) X))%nat = size X.
Proof.
  rewrite <-size_union by apply disjoint_filter_complement.
  by rewrite filter_union_complement.
Qed.

Lemma wf_roles_cover g : wf_game g -> roles_cover_alive g.
Proof.
  intros [W1 W2 W3 W4] p Hp. destruct (started g) eqn:Hs.
  - destruct (W4 eq_refl) as (Hk & _). apply get_Some_keys. rewrite Hk.
    apply W2 in Hp. unfold player_set in Hp. by apply elem_of_list_to_set in Hp.
  - destruct (W3 eq_refl) as [_ He]. rewrite He in Hp. by apply elem_of_empty in Hp.
Qed.

Lemma wf_one_killer g : wf_game g -> (size (killers g) <= 1)%nat.
Proof.
  intros [W1 W2 W3 W4]. unfold killers. destruct (started g) eqn:Hs.
  - destruct (W4 eq_refl) as (Hk & Hm & _).
    rewrite <-Hm, <-size_holders_all by (by rewrite Hk).
    apply subseteq_size. rewrite Hk. fold (player_set g). set_solver.
  - destruct (W3 eq_refl) as [_ ->].
    transitivity (size (∅ : gset Z)); [apply subseteq_size; set_solver|].
    rewrite size_empty. lia.
Qed.

(** X15.  in every game the bot can hold, each living player has a role,
    so that the win check does not fail on a missing key, and at most
    one living player is the Mafia; the check reports no winner when
    nobody is alive and otherwise decides by the counts of the living. *)
Theorem reachable_win_check lower strip chat_action w chat_id g :
  reachable lower strip chat_action w ->
  get chat_id (games w) = Some g ->
  roles_cover_alive g
  /\ (size (killers g) <= 1)%nat
  /\ check_game_end chat_id w
     = if decide (alive g = ∅) then no_winner w else win_rule chat_id w g.
Proof.
  intros Hreach Hg.
  pose proof (reachable_wf _ _ _ _ Hreach chat_id g Hg) as Hwf.
  split; [by apply wf_roles_cover|]. split; [by apply wf_one_killer|].
  apply check_game_end_cases; [done | by apply wf_roles_cover].
Qed.

Lemma reachable_win_check_witness :
  roles_cover_alive opening_game
  /\ (size (killers opening_game) <= 1)%nat
  /\ check_game_end 9 opening_world
     = if decide (alive opening_game = ∅) then no_winner opening_world
       else win_rule 9 opening_world opening_game.
Proof.
  apply (reachable_win_check ascii_lower ascii_strip ptb_reply_chat_action
           opening_world 9 opening_game).
  - exact opening_reachable.
  - vm_compute. reflexivity.
Defined.

(** X16.  in every game the bot can hold, [status] does not fail: it
    answers with the phase and with the names of the living, one name
    for each living player, and changes nothing. *)
Theorem status_of_reachable lower strip chat_action w chat_id g :
  reachable lower strip chat_action w ->
  get chat_id (games w) = Some g ->
  exists names,
    status chat_id w
    = (Ret (GameStatus (bool_decide (phase g = day_phase)) names), w)
    /\ Forall2 (fun u n => get u (players g) = Some n) (elements (alive g)) names.
Proof.
  intros Hreach Hg.
  destruct (reachable_wf _ _ _ _ Hreach chat_id g Hg) as [W1 W2 _ _].
  destruct (map_res_Forall2 (players g) (elements (alive g))) as (names & Hn & HF).
  { intros u Hu%elem_of_elements. apply get_Some_keys.
    apply W2 in Hu. unfold player_set in Hu. by apply elem_of_list_to_set in Hu. }
  exists names. split; [|done]. unfold status.
  rewrite (bind_Ret _ _ w (games w) w) by done.
  rewrite (mem_true _ _ _ Hg). simpl.
  rewrite (bind_Ret _ _ _ _ _ (get_game_Some _ _ _ Hg)).
  by rewrite Hn.
Qed.

Lemma status_of_reachable_witness :
  exists names,
    status 9 opening_world
    = (Ret (GameStatus (bool_decide (phase opening_game = day_phase)) names),
       opening_world)
    /\ Forall2 (fun u n => get u (players opening_game) = Some n)
               (elements (alive opening_game)) names.
Proof.
  apply (status_of_reachable ascii_lower ascii_strip ptb_reply_chat_action
           opening_world 9 opening_game).
  - exact opening_reachable.
  - vm_compute. reflexivity.
Defined.

(** ** The first morning *)

Lemma coroutine_Ret {A} (m : M A) w a w' :
  m w = (Ret a, w') -> coroutine m w = (Ret a, w').
Proof. intros H. unfold coroutine, try_catch. by rewrite H. Qed.

Lemma Forall2_get_fmap {V} (d : list (Z * V)) (v0 : V) l vs :
  Forall2 (fun u v => get u d = Some v) l vs ->
  vs = (fun u => default v0 (get u d)) <$> l.
Proof.
  induction 1 as [|u v l vs Hu _ IH]; [done|].
  rewrite fmap_cons, Hu, <-IH. done.
Qed.

Lemma fmap_get_keys {V} (d : list (Z * V)) (v0 : V) :
  NoDup (keys d) -> (fun u => default v0 (get u d)) <$> keys d = values d.
Proof.
  unfold keys, values. induction d as [|[k v] d IH]; [done|].
  rewrite !fmap_cons. simpl. intros [Hk Hnd]%NoDup_cons.
  rewrite decide_True by done. simpl. f_equal.
  rewrite <-(IH Hnd). apply Forall_fmap_ext_1, Forall_forall.
  intros u Hu. rewrite decide_False; [done|]. by intros ->.
Qed.

(** The values of a dict are, in some order, what one reads under its
    keys taken in any order. *)
Lemma Forall2_get_values {V} (d : list (Z * V)) l vs :
  NoDup (keys d) -> l ≡ₚ keys d ->
  Forall2 (fun u v => get u d = Some v) l vs ->
  vs ≡ₚ values d.
Proof.
  intros Hnd Hl HF. destruct vs as [|v0 vs0] eqn:Hvs.
  - apply Forall2_nil_inv_r in HF. subst l.
    apply Permutation_nil_l in Hl. unfold keys, values in *.
    destruct d; [done|discriminate].
  - rewrite <-Hvs in *. clear Hvs vs0.
    rewrite (Forall2_get_fmap d v0 l vs HF), <-(fmap_get_keys d v0 Hnd).
    by apply fmap_Permutation.
Qed.

(** X17.  a [day] that follows a [begin] with no choice made in between
    ends a night without a victim and without a winner: all the players
    are alive; the report names the living, each under the name
    [players] has for it, which are the names of all the players; the
    phase is the day and the ballot is empty. *)
Theorem first_day_after_begin rnd chat_id w g :
  get chat_id (games w) = Some g ->
  NoDup (keys (players g)) ->
  (3 <= length (players g))%nat ->
  night_actions g = [] ->
  exists r names,
    assign_roles rnd (keys (players g)) = Ret r
    /\ length names = length (players g)
    /\ Forall2 (fun u n => get u (players g) = Some n)
               (elements (player_set g)) names
    /\ names ≡ₚ values (players g)
    /\ (forall u, u ∈ player_set g <-> is_Some (get u (players g)))
    /\ day chat_id (begin rnd chat_id w).2
       = (Ret tt,
          World (set chat_id
                   (Game (players g) r (player_set g) true day_phase [] [])
                   (games w))
                (outbox (begin rnd chat_id w).2
                 ++ [SendMessage chat_id (NightReport None None names);
                     SendMessage chat_id DayStarted])).
Proof.
  intros Hg Hnd Hn Hna.
  destruct (begin_starts rnd chat_id w g Hg Hn) as (r & out & Hr & Hb).
  rewrite Hna in Hb.
  destruct (assign_roles_counts rnd (keys (players g)) Hnd) as (d & Hd & Hk & Hc).
  { unfold keys. by rewrite length_fmap. }
  rewrite Hr in Hd. injection Hd as <-.
  set (g1 := Game (players g) r (player_set g) true night_phase (votes g) []).
  assert (Hsize : size (player_set g) = length (players g)).
  { unfold player_set. rewrite size_list_to_set by done. unfold keys. apply length_fmap. }
  destruct (map_res_Forall2 (players g) (elements (player_set g))) as (names & Hnames & HF).
  { intros u Hu%elem_of_elements. apply get_Some_keys.
    unfold player_set in Hu. by apply elem_of_list_to_set in Hu. }
  exists r, names. split; [done|]. split.
  { rewrite <-(Forall2_length _ _ _ HF), <-Hsize. done. }
  split; [done|]. split.
  { apply (Forall2_get_values (players g) (elements (player_set g))); [done| |done].
    unfold player_set. by apply elements_list_to_set. }
  split.
  { intros u. unfold player_set. rewrite elem_of_list_to_set.
    symmetry. apply get_Some_keys. }
  rewrite Hb. simpl. unfold day.
  erewrite bind_Ret by reflexivity. simpl.
  erewrite mem_true by apply get_set_eq. simpl.
  erewrite bind_Ret by (apply get_game_Some; simpl; apply get_set_eq).
  simpl. unfold end_night_phase. apply coroutine_Ret.
  erewrite bind_Ret by (apply get_game_Some; simpl; apply get_set_eq).
  cbv zeta. simpl.
  erewrite bind_Ret by reflexivity.
  erewrite bind_Ret by reflexivity.
  erewrite bind_Ret by (apply get_game_Some; simpl; apply get_set_eq).
  simpl. rewrite Hnames.
  erewrite bind_Ret by reflexivity.
  erewrite bind_Ret by reflexivity.
  unfold day_breaks.
  assert (Hg1 : get chat_id (set chat_id g1 (games w)) = Some g1) by apply get_set_eq.
  assert (Hkill : size (killers g1) = 1%nat).
  { unfold killers, g1, player_set. simpl. rewrite <-Hk.
    rewrite size_holders_all by (by rewrite Hk). apply Hc. }
  assert (Htown : (size (killers g1) + size (townsfolk g1))%nat = length (players g)).
  { unfold killers, townsfolk. rewrite size_filter_complement. apply Hsize. }
  assert (Hcheck : forall o,
            check_game_end chat_id (World (set chat_id g1 (games w)) o)
            = (Ret false, World (set chat_id g1 (games w)) o)).
  { intros o. rewrite (check_game_end_cases chat_id _ g1); [|exact Hg1|].
    - rewrite decide_False.
      + unfold win_rule. rewrite decide_False by lia. rewrite decide_False by lia.
        reflexivity.
      + intros He. assert (Hz : size (alive g1) = 0%nat) by (rewrite He; apply size_empty).
        simpl in Hz. lia.
    - intros p Hp. simpl in Hp. apply get_Some_keys. simpl. rewrite Hk.
      unfold player_set in Hp. by apply elem_of_list_to_set in Hp. }
  erewrite bind_Ret by exact (Hcheck _).
  simpl.
  erewrite bind_Ret by (apply update_game_Some; exact Hg1).
  erewrite bind_Ret by (apply update_game_Some; simpl; apply get_set_eq).
  unfold emit. simpl. rewrite !set_set. unfold g1, set_votes, set_phase. simpl.
  by rewrite <-!app_assoc.
Qed.

Lemma first_day_after_begin_witness :
  exists r names,
    assign_roles draw_zero (keys (players quartet_second_night)) = Ret r
    /\ length names = length (players quartet_second_night)
    /\ Forall2 (fun u n => get u (players quartet_second_night) = Some n)
               (elements (player_set quartet_second_night)) names
    /\ names ≡ₚ values (players quartet_second_night)
    /\ (forall u, u ∈ player_set quartet_second_night
                  <-> is_Some (get u (players quartet_second_night)))
    /\ day 9 (begin draw_zero 9 quartet_second_night_world).2
       = (Ret tt,
          World (set 9
                   (Game (players quartet_second_night) r
                         (player_set quartet_second_night) true day_phase [] [])
                   (games quartet_second_night_world))
                (outbox (begin draw_zero 9 quartet_second_night_world).2
                 ++ [SendMessage 9 (NightReport None None names);
                     SendMessage 9 DayStarted])).
Proof.
  apply (first_day_after_begin draw_zero 9 quartet_second_night_world
           quartet_second_night).
  - reflexivity.
  - compute_done.
  - simpl. lia.
  - reflexivity.
Defined.

(** ** The operations on the set of the living *)

(** X19.  what the three operations that write [alive] do to it,
    whether they return or raise: night resolution and a vote leave an
    [alive] that is a subset of the one before; [begin] leaves the game
    as it is with fewer than three players and otherwise, started or
    not, makes [alive] the set of all player ids.  None of them changes
    [players], and an [alive] within the player ids stays within them. *)
Theorem alive_shrinks_or_is_reset lower strip chat_action (o : operation)
    chat_id w r w' g g' :
  run lower strip chat_action o chat_id w = (r, w') ->
  get chat_id (games w) = Some g ->
  get chat_id (games w') = Some g' ->
  players g' = players g
  /\ (alive g ⊆ player_set g -> alive g' ⊆ player_set g')
  /\ match o with
     | Begin _ =>
         if decide (3 <= length (players g))%nat
         then alive g' = player_set g
         else alive g' = alive g
     | ResolveNight | Vote _ _ => alive g' ⊆ alive g
     end.
Proof.
  intros Hrun Hg Hg'.
  assert (Hshrink : forall m : M unit,
             preserves alive_shrinks m -> m w = (r, w') ->
             players g' = players g /\ alive g' ⊆ alive g).
  { intros m Hm Hmw. destruct (Hm w r w' Hmw chat_id g' Hg') as (g0 & Hg0 & Hp & Ha).
    rewrite Hg in Hg0. injection Hg0 as <-. done. }
  destruct o as [rnd| |user_id args]; simpl in Hrun.
  - destruct (decide (3 <= length (players g))%nat) as [Hn|Hn].
    + destruct (begin_starts rnd chat_id w g Hg Hn) as (ro & out & _ & Hb).
      rewrite Hb in Hrun. injection Hrun as _ <-. simpl in Hg'.
      rewrite get_set_eq in Hg'. injection Hg' as <-. simpl.
      unfold player_set. simpl. done.
    + rewrite (too_few_players_begin rnd chat_id w g Hg) in Hrun by lia. injection Hrun as _ <-. simpl in Hg'.
      rewrite Hg in Hg'. injection Hg' as <-. done.
  - destruct (Hshrink _ (alive_shrinks_end_night_phase chat_id) Hrun) as [Hp Ha].
    split; [done|]. split; [|done].
    rewrite (player_set_games_eq _ _ Hp). set_solver.
  - destruct (Hshrink _ (alive_shrinks_vote _ _ _ _ _ _) Hrun) as [Hp Ha].
    split; [done|]. split; [|done].
    rewrite (player_set_games_eq _ _ Hp). set_solver.
Qed.

Lemma alive_shrinks_or_is_reset_witness :
  players quartet_morning = players quartet_game
  /\ (alive quartet_game ⊆ player_set quartet_game ->
      alive quartet_morning ⊆ player_set quartet_morning)
  /\ alive quartet_morning ⊆ alive quartet_game.
Proof.
  apply (alive_shrinks_or_is_reset id id ptb_reply_chat_action ResolveNight 9
           quartet_world (Ret tt)
           (World [(9, quartet_morning)]
              [SendMessage 9 (NightReport (Some "Gani") (Some ("Ali", Mafia))
                                          ["Sami"; "Vali"; "Ali"]);
               SendMessage 9 DayStarted])).
  - vm_compute. reflexivity.
  - reflexivity.
  - reflexivity.
Defined.
